(** * FikaConnect dispatch core: fare engine, driver assignment, tracking

    A shallow embedding of the JavaScript sources:
    - [index.js]: the fare engine and the [validateAndFinalizeBooking]
      trigger;
    - the driver-assignment plan: [assignDriverToBooking] and
      [calculateDriverScores];
    - the tracking plan: [updateDriverLocationInFirestore],
      [initializeTracking] and [generateTrackingLink].

    JavaScript numbers are IEEE-754 binary64 values; they are embedded as
    Rocq's primitive floats, whose operations are the same binary64
    operations with round-to-nearest-even.  Decimal literals are read, as
    by a JavaScript parser, as the nearest binary64 value. *)

From Stdlib Require Import ZArith Lia Bool Sorted.
From Stdlib Require Import Floats.
From stdpp Require Import base option strings list gmap.

Set Warnings "-inexact-float".
Set Default Proof Using "Type".

(** ** JavaScript values and the built-ins the sources use *)

Module JS.

Local Open Scope float_scope.

(** The values a property read can produce in the embedded code: an absent
    property reads as [undefined]; [JObj] stands for any object or function
    (the members inherited from [Object.prototype] are such values). *)
Inductive jsval : Type :=
  | JUndefined
  | JNum (x : float)
  | JObj.

(** ToBoolean: [undefined], [0], [-0] and [NaN] are falsy; objects are
    truthy. *)
Definition truthy (v : jsval) : bool :=
  match v with
  | JUndefined => false
  | JNum x => negb (is_zero x || is_nan x)
  | JObj => true
  end.

(** [a || b] *)
Definition js_or (a b : jsval) : jsval := if truthy a then a else b.

(** ToNumber: [undefined] is [NaN]; a function or a plain object converts
    through its string form, which is not numeric. *)
Definition ToNumber (v : jsval) : float :=
  match v with
  | JNum x => x
  | JUndefined => nan
  | JObj => nan
  end.

(** [a === b] for a number [a] *)
Definition strict_eq_num (a : float) (b : jsval) : bool :=
  match b with
  | JNum y => a =? y
  | _ => false
  end.

Definition Math_PI : float := 3.141592653589793.

(** [Math.max(a, b)]: [NaN] if either argument is [NaN], else the larger,
    with [+0] larger than [-0]. *)
Definition Math_max (a b : float) : float :=
  if is_nan a || is_nan b then nan
  else if a <? b then b
  else if b <? a then a
  else if is_zero a && get_sign a then b
  else a.

Definition Math_abs (x : float) : float := abs x.

(** The integer [floor (v + 1/2)] for the dyadic [v = (-1)^s * m * 2^e]
    with [e < 0]. *)
Definition round_half_up (s : bool) (m : positive) (e : Z) : Z :=
  let d := Z.pow 2 (- e) in
  ((2 * (if s then Z.neg m else Z.pos m) + d) / (2 * d))%Z.

(** The binary64 value of an integer (exact below [2^53]). *)
Definition float_of_Z (n : Z) : float :=
  SF2Prim (binary_normalize prec emax n 0 false).

(** [Math.round(x)]: the integer nearest to [x], halves rounded towards
    [+Infinity]; [NaN], the infinities and the zeros are returned
    unchanged, as is every [x] that is already an integer; a negative [x]
    that rounds to zero gives [-0]. *)
Definition Math_round (x : float) : float :=
  match Prim2SF x with
  | S754_finite s m e =>
      if (0 <=? e)%Z then x
      else
        let n := round_half_up s m e in
        if (n =? 0)%Z then (if s then neg_zero else zero) else float_of_Z n
  | _ => x
  end.

(** Own properties of an object literal with numeric values. *)
Definition own_props := list (string * float).

Fixpoint own_lookup (o : own_props) (k : string) : option float :=
  match o with
  | [] => None
  | (k', v) :: o' => if String.eqb k' k then Some v else own_lookup o' k
  end.

(** The property names every object literal inherits from
    [Object.prototype]; each reads as a function, except [__proto__],
    which reads as the prototype object. *)
Definition Object_prototype_keys : list string :=
  [ "constructor"; "hasOwnProperty"; "isPrototypeOf"; "propertyIsEnumerable";
    "toLocaleString"; "toString"; "valueOf"; "__proto__";
    "__defineGetter__"; "__defineSetter__"; "__lookupGetter__";
    "__lookupSetter__" ]%string.

Definition inherited (k : string) : bool :=
  existsb (String.eqb k) Object_prototype_keys.

(** [o[k]] for an object literal [o]: the own property if there is one,
    else the member inherited through the prototype chain, else
    [undefined]. *)
Definition get_prop (o : own_props) (k : string) : jsval :=
  match own_lookup o k with
  | Some v => JNum v
  | None => if inherited k then JObj else JUndefined
  end.

End JS.

(** ** The fare engine and the booking trigger ([index.js]) *)

Module Fare.

Import JS.
Local Open Scope float_scope.

Definition DIRECT_DELIVERY_BASE_FARE : float := 3000.
Definition COLLECTION_POINT_BASE_FARE : float := 2000.
Definition PER_KM_RATE : float := 800.
Definition PER_KG_RATE : float := 500.
Definition FRAGILE_FEE : float := 1500.
Definition MINIMUM_FARE : float := 5000.
Definition COLLECTION_POINT_DISCOUNT : float := 0.9.
Definition COMMISSION_RATE : float := 0.15.

Definition SIZE_MULTIPLIERS : own_props :=
  [ ("small", 1.0); ("medium", 1.2); ("large", 1.5); ("xlarge", 2.0) ]%string.

Record CollectionPoint := {
  cp_id : string;
  cp_name : string;
  cp_lat : float;
  cp_lng : float
}.

Definition collectionPoints : list CollectionPoint :=
  [ {| cp_id := "cp1"; cp_name := "Kampala Central - Main Office";
       cp_lat := 0.3150; cp_lng := 32.5822 |};
    {| cp_id := "cp2"; cp_name := "Entebbe Road - Kitooro";
       cp_lat := 0.0536; cp_lng := 32.4632 |};
    {| cp_id := "cp3"; cp_name := "Jinja Road - Mukono";
       cp_lat := 0.3556; cp_lng := 32.7570 |};
    {| cp_id := "cp4"; cp_name := "Gulu Highway - Luwero";
       cp_lat := 0.8333; cp_lng := 32.4833 |} ]%string.

(** A point as the trigger reads it: either coordinate may be absent. *)
Record Location := { lat : jsval; lng : jsval }.

(** The transcendental functions of [Math], which binary64 arithmetic does
    not determine, are taken from the host. *)
Class MathLib := {
  Math_sin : float -> float;
  Math_cos : float -> float;
  Math_atan2 : float -> float -> float
}.

Record FareDetails := {
  totalFare : float;
  commission : float;
  driverPayout : float
}.

Definition calculateDirectDeliveryFare (distance weight : float)
    (sizeCategory : string) (isFragile : bool) : FareDetails :=
  let sizeMultiplier :=
    js_or (get_prop SIZE_MULTIPLIERS sizeCategory) (JNum 1.0) in
  let fragileFee := if isFragile then FRAGILE_FEE else 0 in
  let totalFare :=
    DIRECT_DELIVERY_BASE_FARE
    + (distance * PER_KM_RATE)
    + ((weight * PER_KG_RATE) * ToNumber sizeMultiplier)
    + fragileFee in
  let totalFare := Math_max totalFare MINIMUM_FARE in
  let commission := totalFare * COMMISSION_RATE in
  let driverPayout := totalFare - commission in
  {| totalFare := totalFare; commission := commission;
     driverPayout := driverPayout |}.

Definition calculateCollectionPointFare (distance weight : float)
    (sizeCategory : string) (isFragile : bool) : FareDetails :=
  let sizeMultiplier :=
    js_or (get_prop SIZE_MULTIPLIERS sizeCategory) (JNum 1.0) in
  let fragileFee := if isFragile then FRAGILE_FEE else 0 in
  let baseCalculation :=
    COLLECTION_POINT_BASE_FARE
    + (distance * PER_KM_RATE)
    + ((weight * PER_KG_RATE) * ToNumber sizeMultiplier)
    + fragileFee in
  let totalFare := baseCalculation * COLLECTION_POINT_DISCOUNT in
  let totalFare := Math_round (totalFare / 100) * 100 in
  let commission := totalFare * COMMISSION_RATE in
  let driverPayout := totalFare - commission in
  {| totalFare := totalFare; commission := commission;
     driverPayout := driverPayout |}.

(** The booking document as the trigger reads it.  [packageDetails],
    [pickup], [dropoff] and [paymentDetails] are nested objects that a
    submitted document may lack; the package attributes have the types the
    fare functions document. *)
Record PackageDetails := {
  weight : float;
  size : string;
  isFragile : bool
}.

Record PaymentDetails := { estimatedFare : jsval }.

Record Booking := {
  deliveryType : string;
  packageDetails : option PackageDetails;
  pickup : option Location;
  dropoff : option Location;
  paymentDetails : option PaymentDetails
}.

Inductive LogEntry : Type :=
  | Info_processing
  | Error_invalid_location
  | Error_invalid_collection_point
  | Error_invalid_delivery_type (deliveryType : string)
  | Warn_fare_mismatch (calculated : float) (submitted : jsval)
  | Info_finalized
  | Error_failed_to_calculate.

Inductive FieldValue : Type := serverTimestamp.

(** The argument of [snap.ref.update]. *)
Record BookingUpdate := {
  upd_estimatedFare : float;
  upd_commission : float;
  upd_driverPayout : float;
  upd_distance : float;
  upd_lastUpdated : FieldValue
}.

(** How an invocation ends: it returns, or a property read on [undefined]
    throws a [TypeError] that nothing catches. *)
Inductive Completion : Type := Returned | ThrewTypeError.

Record Outcome := {
  logged : list LogEntry;
  written : option BookingUpdate;
  completion : Completion
}.

Definition rejected (log : list LogEntry) : Outcome :=
  {| logged := log; written := None; completion := Returned |}.

Definition threw (log : list LogEntry) : Outcome :=
  {| logged := log; written := None; completion := ThrewTypeError |}.

Section Trigger.
Context {M : MathLib}.

Definition getDistance (start end_ : Location) : float :=
  let R := 6371 in
  let dLat := (ToNumber (lat end_) - ToNumber (lat start)) * Math_PI / 180 in
  let dLng := (ToNumber (lng end_) - ToNumber (lng start)) * Math_PI / 180 in
  let a := Math_sin (dLat / 2) * Math_sin (dLat / 2)
           + Math_cos (ToNumber (lat start) * Math_PI / 180)
             * Math_cos (ToNumber (lat end_) * Math_PI / 180)
             * Math_sin (dLng / 2) * Math_sin (dLng / 2) in
  let c := 2 * Math_atan2 (sqrt a) (sqrt (1 - a)) in
  R * c.

(** The first half of the trigger: the branch on [deliveryType], up to the
    computed distance and fare.  [inl] is an invocation that has already
    ended. *)
Definition price (log : list LogEntry) (bookingData : Booking)
    (pd : PackageDetails) : Outcome + (float * FareDetails) :=
  if String.eqb (deliveryType bookingData) "direct" then
    match pickup bookingData, dropoff bookingData with
    | Some pickup, Some dropoff =>
        if negb (truthy (lat pickup)) || negb (truthy (lat dropoff)) then
          inl (rejected (log ++ [Error_invalid_location]))
        else
          let distance := getDistance pickup dropoff in
          inr (distance,
               calculateDirectDeliveryFare distance (weight pd) (size pd)
                 (isFragile pd))
    | _, _ => inl (rejected (log ++ [Error_invalid_location]))
    end
  else if String.eqb (deliveryType bookingData) "collection_point" then
    match pickup bookingData, dropoff bookingData with
    | Some pickup, Some dropoff =>
        let pickupPointId := lat pickup in
        let dropoffPointId := lat dropoff in
        let startPoint :=
          find (fun p => strict_eq_num (cp_lat p) pickupPointId)
            collectionPoints in
        let endPoint :=
          find (fun p => strict_eq_num (cp_lat p) dropoffPointId)
            collectionPoints in
        match startPoint, endPoint with
        | Some startPoint, Some endPoint =>
            let start := {| lat := JNum (cp_lat startPoint);
                            lng := JNum (cp_lng startPoint) |} in
            let end_ := {| lat := JNum (cp_lat endPoint);
                           lng := JNum (cp_lng endPoint) |} in
            let distance := getDistance start end_ in
            inr (distance,
                 calculateCollectionPointFare distance (weight pd) (size pd)
                   (isFragile pd))
        | _, _ => inl (rejected (log ++ [Error_invalid_collection_point]))
        end
    | _, _ => inl (threw log)
    end
  else
    inl (rejected
           (log ++ [Error_invalid_delivery_type (deliveryType bookingData)])).

Definition validateAndFinalizeBooking (bookingData : Booking) : Outcome :=
  let log := [Info_processing] in
  match packageDetails bookingData with
  | None => threw log
  | Some pd =>
      match price log bookingData pd with
      | inl ended => ended
      | inr (distance, calculatedFareDetails) =>
          match paymentDetails bookingData with
          | None => threw log
          | Some pay =>
              let userSubmittedFare := estimatedFare pay in
              let fareDifference :=
                Math_abs (totalFare calculatedFareDetails
                          - ToNumber userSubmittedFare) in
              let log :=
                if 1 <? fareDifference then
                  log ++ [Warn_fare_mismatch (totalFare calculatedFareDetails)
                            userSubmittedFare]
                else log in
              {| logged := log ++ [Info_finalized];
                 written :=
                   Some {| upd_estimatedFare := totalFare calculatedFareDetails;
                           upd_commission := commission calculatedFareDetails;
                           upd_driverPayout :=
                             driverPayout calculatedFareDetails;
                           upd_distance := distance;
                           upd_lastUpdated := serverTimestamp |};
                 completion := Returned |}
          end
      end
  end.

End Trigger.

End Fare.

(** ** Driver assignment ([assignDriverToBooking], [calculateDriverScores]) *)

Module Assignment.

Import JS.
Local Open Scope float_scope.

Record GeoPoint := { gp_lat : float; gp_lng : float }.

Record WorkingDay := { wd_day : string; wd_start : string; wd_end : string }.

Record ParcelDetails := {
  parcel_type : string;
  weightKg : float;
  parcel_isFragile : bool
}.

(** A document of the [drivers] collection, with its id. *)
Record Driver := {
  id : string;
  name : string;
  vehicleType : string;
  rating : float;
  status : string;
  isActive : bool;
  currentLocation : GeoPoint;
  workingHours : list WorkingDay;
  completedDeliveries : float;
  activeDeliveries : float;
  currentBookingId : option string
}.

(** The fields of a [bookings] document that the assignment reads or
    writes. *)
Record BookingDoc := {
  b_status : string;
  b_pickupLocation : GeoPoint;
  b_parcelDetails : ParcelDetails;
  b_driverId : option string;
  b_driverName : option string;
  b_assignmentTimestamp : option Fare.FieldValue
}.

(** The five sub-score helpers are called by [calculateDriverScores] but
    defined nowhere in the sources: they are taken as given. *)
Class Scorers := {
  calculateDistanceScore : GeoPoint -> GeoPoint -> float;
  calculateWorkloadScore : float -> float -> float;
  calculateRatingScore : float -> float;
  calculateVehicleScore : string -> ParcelDetails -> float;
  calculateAvailabilityScore : list WorkingDay -> float
}.

Record ScoredDriver := {
  driverId : string;
  driverName : string;
  totalScore : float;
  distanceScore : float;
  workloadScore : float;
  ratingScore : float;
  vehicleScore : float;
  availabilityScore : float
}.

(** [Array.prototype.sort] with a comparator is stable; for a comparator
    that orders its inputs consistently the result is the one stable
    arrangement, computed here by insertion: [x], which precedes the
    elements of [l] in the input, goes after exactly the leading elements
    that the comparator puts strictly before it. *)
Section Sort.
Context {A : Type} (compareFn : A -> A -> float).

Fixpoint sort_insert (x : A) (l : list A) : list A :=
  match l with
  | [] => [x]
  | y :: l' =>
      if 0 <? compareFn x y then y :: sort_insert x l' else x :: y :: l'
  end.

Definition Array_sort (l : list A) : list A := foldr sort_insert [] l.

End Sort.

Section Scoring.
Context {S : Scorers}.

Definition score (booking : BookingDoc) (driver : Driver) : ScoredDriver :=
  let pickupLocation := b_pickupLocation booking in
  let distanceScore :=
    calculateDistanceScore (currentLocation driver) pickupLocation in
  let workloadScore :=
    calculateWorkloadScore (completedDeliveries driver)
      (activeDeliveries driver) in
  let ratingScore := calculateRatingScore (rating driver) in
  let vehicleScore :=
    calculateVehicleScore (vehicleType driver) (b_parcelDetails booking) in
  let availabilityScore := calculateAvailabilityScore (workingHours driver) in
  let totalScore :=
    (distanceScore * 0.4)
    + (workloadScore * 0.2)
    + (ratingScore * 0.15)
    + (vehicleScore * 0.15)
    + (availabilityScore * 0.1) in
  {| driverId := id driver; driverName := name driver;
     totalScore := totalScore; distanceScore := distanceScore;
     workloadScore := workloadScore; ratingScore := ratingScore;
     vehicleScore := vehicleScore; availabilityScore := availabilityScore |}.

Definition calculateDriverScores (drivers : list Driver)
    (booking : BookingDoc) : list ScoredDriver :=
  let scoredDrivers := map (score booking) drivers in
  Array_sort (fun a b => totalScore b - totalScore a) scoredDrivers.

End Scoring.

(** The two collections.  [drivers] is kept in document order, the order
    in which a query returns its documents. *)
Record Firestore := {
  bookings : gmap string BookingDoc;
  drivers : list Driver
}.

Inductive LogEntry : Type :=
  | Log_no_available_drivers
  | Log_assigned (driverId bookingId : string)
  | Log_error (bookingId : string)
  | Notification (driverId bookingId : string).

(** [doc(...).update(...)] changes an existing document and fails on a
    missing one. *)
Definition update_booking (bookingId : string) (f : BookingDoc -> BookingDoc)
    (db : Firestore) : option Firestore :=
  match bookings db !! bookingId with
  | Some b =>
      Some {| bookings := <[bookingId := f b]> (bookings db);
              drivers := drivers db |}
  | None => None
  end.

Definition update_driver (driverId : string) (f : Driver -> Driver)
    (db : Firestore) : option Firestore :=
  if existsb (fun d => String.eqb (id d) driverId) (drivers db) then
    Some {| bookings := bookings db;
            drivers := map (fun d => if String.eqb (id d) driverId
                                     then f d else d) (drivers db) |}
  else None.

Definition assign_booking (selectedDriver : ScoredDriver) (b : BookingDoc)
    : BookingDoc :=
  {| b_status := "Driver Assigned";
     b_pickupLocation := b_pickupLocation b;
     b_parcelDetails := b_parcelDetails b;
     b_driverId := Some (driverId selectedDriver);
     b_driverName := Some (driverName selectedDriver);
     b_assignmentTimestamp := Some Fare.serverTimestamp |}.

Definition assign_driver (bookingId : string) (d : Driver) : Driver :=
  {| id := id d; name := name d; vehicleType := vehicleType d;
     rating := rating d; status := "assigned"; isActive := isActive d;
     currentLocation := currentLocation d; workingHours := workingHours d;
     completedDeliveries := completedDeliveries d;
     activeDeliveries := activeDeliveries d;
     currentBookingId := Some bookingId |}.

(** The query [where status == available, where isActive == true]. *)
Definition available_drivers (db : Firestore) : list Driver :=
  List.filter (fun d => String.eqb (status d) "available" && isActive d)
    (drivers db).

(** An invocation of the trigger between two of its [await]s.  Each
    Firestore call is one atomic step of the store; the invocation is
    suspended between them, and other invocations may run. *)
Inductive Invocation : Type :=
  | Triggered (bookingId : string) (bookingData : BookingDoc)
  | Queried (bookingId : string) (bookingData : BookingDoc)
      (available : list Driver)
  | BookingUpdated (bookingId : string) (selectedDriver : ScoredDriver)
  | DriverUpdated (bookingId : string) (selectedDriver : ScoredDriver)
  | Ended.

Section Trigger.
Context {S : Scorers}.

(** One step of an invocation: up to and including its next Firestore
    call (or its return).  An exception (a failed [update], a read of
    [driverScores[0]] on an empty array) is caught and logged. *)
Definition step (db : Firestore) (inv : Invocation)
    : Firestore * Invocation * list LogEntry :=
  match inv with
  | Triggered bookingId bookingData =>
      if negb (String.eqb (b_status bookingData) "Pending Driver Assignment")
      then (db, Ended, [])
      else (db, Queried bookingId bookingData (available_drivers db), [])
  | Queried bookingId bookingData available =>
      match available with
      | [] => (db, Ended, [Log_no_available_drivers])
      | _ :: _ =>
          match calculateDriverScores available bookingData with
          | [] => (db, Ended, [Log_error bookingId])
          | selectedDriver :: _ =>
              match update_booking bookingId (assign_booking selectedDriver)
                      db with
              | Some db' => (db', BookingUpdated bookingId selectedDriver, [])
              | None => (db, Ended, [Log_error bookingId])
              end
          end
      end
  | BookingUpdated bookingId selectedDriver =>
      match update_driver (driverId selectedDriver) (assign_driver bookingId)
              db with
      | Some db' => (db', DriverUpdated bookingId selectedDriver, [])
      | None => (db, Ended, [Log_error bookingId])
      end
  | DriverUpdated bookingId selectedDriver =>
      (db, Ended,
       [Notification (driverId selectedDriver) bookingId;
        Log_assigned (driverId selectedDriver) bookingId])
  | Ended => (db, Ended, [])
  end.

(** An invocation run alone, from trigger to return: at most four steps. *)
Fixpoint run (fuel : nat) (db : Firestore) (inv : Invocation)
    (log : list LogEntry) : Firestore * list LogEntry :=
  match fuel with
  | O => (db, log)
  | Datatypes.S fuel' =>
      match inv with
      | Ended => (db, log)
      | _ => let '(db', inv', l) := step db inv in
             run fuel' db' inv' (log ++ l)
      end
  end.

Definition assignDriverToBooking (db : Firestore) (bookingId : string)
    (bookingData : BookingDoc) : Firestore * list LogEntry :=
  run 4 db (Triggered bookingId bookingData) [].


End Trigger.

End Assignment.

(** ** Live tracking: the driver's location watcher, the tracking page
       and the tracking sessions *)

Module Tracking.

Import JS.
Local Open Scope float_scope.

(** [position.coords] and [position.timestamp] of the Geolocation API;
    [heading] and [speed] may be [null], of which only the truthiness is
    consulted. *)
Record Coordinates := {
  latitude : float;
  longitude : float;
  accuracy : float;
  heading : jsval;
  speed : jsval
}.

Record Position := { coords : Coordinates; timestamp : Z }.

Record LatLng := { ll_lat : float; ll_lng : float }.

(** [Timestamp.fromDate(d)] for the [Date] [d] made by [new Date()] at
    clock reading [eta_from] and then
    [d.setHours(d.getHours() + eta_hours)]. *)
Record Arrival := { eta_from : Z; eta_hours : float }.

(** The [tracking] block of a booking; every field may be absent. *)
Record TrackingBlock := {
  enabled : option bool;
  startTime : option Z;
  shareableLink : option string;
  lastUpdateTime : option Z;
  tracking_currentLocation : option LatLng;
  driverBatteryLevel : option float;
  distance_remaining : option float;
  estimatedArrival : option Arrival
}.

(** The fields of a [bookings] document that the tracking code reads or
    writes; times are in milliseconds. *)
Record Booking := {
  customerId : option string;
  assignedDriver : option string;
  status : string;
  dropoffLocation : option Fare.Location;
  bookingDate : option Z;
  assignmentDate : option Z;
  lastStatusUpdate : option Z;
  tracking : TrackingBlock
}.

Record LastKnownLocation := {
  lk_lat : float;
  lk_lng : float;
  lk_accuracy : float;
  lk_heading : jsval;
  lk_speed : jsval;
  lk_timestamp : Z;
  lk_batteryLevel : float
}.

Record User := {
  lastKnownLocation : option LastKnownLocation;
  isLocationSharingActive : bool;
  lastLocationUpdate : option Z
}.

(** A document of the append-only [driverLocations] collection. *)
Record DriverLocation := {
  dl_driverId : string;
  dl_timestamp : Z;
  dl_lat : float;
  dl_lng : float;
  dl_accuracy : float;
  dl_heading : jsval;
  dl_speed : jsval;
  dl_batteryLevel : float;
  dl_status : string;
  dl_geohash : string
}.

Record TrackingSession := {
  ts_bookingId : string;
  createdAt : Z;
  createdBy : string;
  expiresAt : option Z;
  accessCount : option Z;
  lastAccessedAt : option Z
}.

(** [admins] maps the id of each document of the [admins] collection to
    the truthiness of its [isAdmin] field. *)
Record Firestore := {
  users : gmap string User;
  admins : gmap string bool;
  driverLocations : list DriverLocation;
  bookings : gmap string Booking;
  trackingSessions : gmap string TrackingSession
}.

Definition set_bookings (f : gmap string Booking -> gmap string Booking)
    (db : Firestore) : Firestore :=
  {| users := users db; admins := admins db;
     driverLocations := driverLocations db; bookings := f (bookings db);
     trackingSessions := trackingSessions db |}.

Definition set_trackingSessions
    (f : gmap string TrackingSession -> gmap string TrackingSession)
    (db : Firestore) : Firestore :=
  {| users := users db; admins := admins db;
     driverLocations := driverLocations db; bookings := bookings db;
     trackingSessions := f (trackingSessions db) |}.

Definition set_tracking (f : TrackingBlock -> TrackingBlock) (b : Booking)
    : Booking :=
  {| customerId := customerId b; assignedDriver := assignedDriver b;
     status := status b; dropoffLocation := dropoffLocation b;
     bookingDate := bookingDate b; assignmentDate := assignmentDate b;
     lastStatusUpdate := lastStatusUpdate b; tracking := f (tracking b) |}.

(** [Number.prototype.toFixed], like the transcendental functions, is
    taken from the host. *)
Class NumberFormat := { toFixed : float -> Z -> string }.

Inductive Message : Type :=
  | Warn_no_driver_id
  | Log_location_updated (latitude longitude : float)
  | Error_updating_location.

Section Ingestion.
Context {M : Fare.MathLib} {F : NumberFormat}.

Definition calculateDistance (lat1 lon1 lat2 lon2 : float) : float :=
  let R := 6371e3 in
  let phi1 := lat1 * Math_PI / 180 in
  let phi2 := lat2 * Math_PI / 180 in
  let dphi := (lat2 - lat1) * Math_PI / 180 in
  let dlambda := (lon2 - lon1) * Math_PI / 180 in
  let a := Fare.Math_sin (dphi / 2) * Fare.Math_sin (dphi / 2)
           + Fare.Math_cos phi1 * Fare.Math_cos phi2
             * Fare.Math_sin (dlambda / 2) * Fare.Math_sin (dlambda / 2) in
  let c := 2 * Fare.Math_atan2 (sqrt a) (sqrt (1 - a)) in
  R * c.

Definition calculateGeoHash (latitude longitude : float) : string :=
  (toFixed latitude 8 ++ "," ++ toFixed longitude 8)%string.

(** The query of the bookings to update. *)
Definition is_assigned_to (driver : string) (b : Booking) : bool :=
  bool_decide (assignedDriver b = Some driver)
  && existsb (String.eqb (status b)) ["Assigned"; "Picked Up"; "In Transit"]%string.

(** The [updateDoc] of one assigned booking: the dotted paths overwrite
    their fields of the [tracking] block and keep the others. *)
Definition track (serverTime clientNow : Z) (c : Coordinates)
    (batteryLevel : float) (bookingData : Booking) : Booking :=
  let projections :=
    match dropoffLocation bookingData with
    | Some dropoff =>
        if truthy (Fare.lat dropoff) && truthy (Fare.lng dropoff) then
          let remainingDistance :=
            calculateDistance (latitude c) (longitude c)
              (ToNumber (Fare.lat dropoff)) (ToNumber (Fare.lng dropoff))
            / 1000 in
          let avgSpeedKmh :=
            if truthy (speed c) then ToNumber (speed c) * 3.6 else 30 in
          let estimatedTimeHours :=
            remainingDistance / Math_max avgSpeedKmh 10 in
          Some (remainingDistance,
                {| eta_from := clientNow; eta_hours := estimatedTimeHours |})
        else None
    | None => None
    end in
  set_tracking (fun t =>
    {| enabled := Some true;
       startTime := startTime t;
       shareableLink := shareableLink t;
       lastUpdateTime := Some serverTime;
       tracking_currentLocation :=
         Some {| ll_lat := latitude c; ll_lng := longitude c |};
       driverBatteryLevel := Some batteryLevel;
       distance_remaining :=
         match projections with
         | Some (remaining, _) => Some remaining
         | None => distance_remaining t
         end;
       estimatedArrival :=
         match projections with
         | Some (_, eta) => Some eta
         | None => estimatedArrival t
         end |}) bookingData.

(** [serverTime] is the value the server gives [serverTimestamp()];
    [clientNow] is the reading of [new Date()].  [position.timestamp],
    the capture time of the sample, is not read. *)
Definition updateDriverLocationInFirestore (CURRENT_DRIVER_ID : option string)
    (serverTime clientNow : Z) (db : Firestore) (position : Position)
    (batteryLevel : float) : Firestore * list Message :=
  match CURRENT_DRIVER_ID with
  | None => (db, [Warn_no_driver_id])
  | Some driver =>
      let hasAssignedBookings :=
        bool_decide (map_Exists (fun _ b => is_assigned_to driver b = true)
                       (bookings db)) in
      let c := coords position in
      let geohash := calculateGeoHash (latitude c) (longitude c) in
      match users db !! driver with
      | None => (db, [Error_updating_location])
      | Some u =>
          let u' :=
            {| lastKnownLocation :=
                 Some {| lk_lat := latitude c; lk_lng := longitude c;
                         lk_accuracy := accuracy c;
                         lk_heading := js_or (heading c) (JNum 0);
                         lk_speed := js_or (speed c) (JNum 0);
                         lk_timestamp := serverTime;
                         lk_batteryLevel := batteryLevel |};
               isLocationSharingActive := true;
               lastLocationUpdate := Some serverTime |} in
          let sample :=
            {| dl_driverId := driver; dl_timestamp := serverTime;
               dl_lat := latitude c; dl_lng := longitude c;
               dl_accuracy := accuracy c;
               dl_heading := js_or (heading c) (JNum 0);
               dl_speed := js_or (speed c) (JNum 0);
               dl_batteryLevel := batteryLevel;
               dl_status :=
                 if hasAssignedBookings then "on_delivery" else "active";
               dl_geohash := geohash |} in
          ({| users := <[driver := u']> (users db);
              admins := admins db;
              driverLocations := driverLocations db ++ [sample];
              bookings :=
                (fun b => if is_assigned_to driver b
                          then track serverTime clientNow c batteryLevel b
                          else b) <$> bookings db;
              trackingSessions := trackingSessions db |},
           [Log_location_updated (latitude c) (longitude c)])
      end
  end.

(** The state of the location watcher of [startLocationTracking]. *)
Record CurrentLocation := {
  cl_lat : float;
  cl_lng : float;
  cl_accuracy : float;
  cl_heading : jsval;
  cl_speed : jsval
}.

Record Watcher := {
  locationUpdateInterval : float;
  lastLocation : option CurrentLocation
}.

Definition minInterval : float := 5000.
Definition maxInterval : float := 60000.
Definition significantMovementThreshold : float := 10.

Definition initial_watcher : Watcher :=
  {| locationUpdateInterval := 10000; lastLocation := None |}.

(** The success callback given to [watchPosition]. *)
Definition on_position (CURRENT_DRIVER_ID : option string)
    (serverTime clientNow : Z) (w : Watcher) (db : Firestore)
    (position : Position) (batteryLevel : float)
    : Watcher * Firestore * list Message :=
  let c := coords position in
  let currentLocation :=
    {| cl_lat := latitude c; cl_lng := longitude c;
       cl_accuracy := accuracy c;
       cl_heading := js_or (heading c) (JNum 0);
       cl_speed := js_or (speed c) (JNum 0) |} in
  let isSignificantMovement :=
    match lastLocation w with
    | Some last =>
        let distance :=
          calculateDistance (cl_lat last) (cl_lng last)
            (cl_lat currentLocation) (cl_lng currentLocation) in
        significantMovementThreshold <? distance
    | None => true
    end in
  if isSignificantMovement || negb (bool_decide (is_Some (lastLocation w)))
  then
    let '(db', log) :=
      updateDriverLocationInFirestore CURRENT_DRIVER_ID serverTime clientNow
        db position batteryLevel in
    let interval :=
      if 10 <? ToNumber (cl_speed currentLocation) then minInterval
      else if 5 <? ToNumber (cl_speed currentLocation) then 15000
      else maxInterval in
    ({| locationUpdateInterval := interval;
        lastLocation := Some currentLocation |}, db', log)
  else (w, db, []).

End Ingestion.

(** What the tracking page ends up showing. *)
Inductive View : Type :=
  | ShowError (message : string)
  | Displayed (bookingId : string) (booking : Booking).

(** [now] is the reading of [new Date()] for [lastAccessedAt], [now'] the
    later reading that the expiry is compared with. *)
Definition initializeTracking (db : Firestore) (now now' : Z)
    (trackingId : string) : Firestore * View :=
  match trackingSessions db !! trackingId with
  | None => (db, ShowError "Tracking session not found or has expired.")
  | Some trackingSession =>
      let bookingId := ts_bookingId trackingSession in
      let counted :=
        {| ts_bookingId := ts_bookingId trackingSession;
           createdAt := createdAt trackingSession;
           createdBy := createdBy trackingSession;
           expiresAt := expiresAt trackingSession;
           accessCount :=
             Some (match accessCount trackingSession with
                   | Some n => n
                   | None => 0
                   end + 1)%Z;
           lastAccessedAt := Some now |} in
      let db' := set_trackingSessions (insert trackingId counted) db in
      let expired :=
        match expiresAt trackingSession with
        | Some t => (t <? now')%Z
        | None => false
        end in
      if expired then (db', ShowError "This tracking link has expired.")
      else
        match bookings db' !! bookingId with
        | None => (db', ShowError "Delivery information not found.")
        | Some booking => (db', Displayed bookingId booking)
        end
  end.

(** The status timeline of the tracking page. *)
Inductive ItemClass : Type := Plain | Completed | Active.

Record TimelineItem := {
  ti_class : ItemClass;
  ti_time : option Z;
  ti_status : string;
  ti_description : string
}.

Definition allStatuses : list (string * string) :=
  [ ("Pending Driver Assignment",
     "Waiting for a driver to accept your delivery.");
    ("Driver Assigned", "A driver has been assigned to your delivery.");
    ("Picked Up", "Your package has been picked up and is on its way.");
    ("In Transit", "Your package is being transported to the destination.");
    ("Delivered", "Your package has been delivered successfully.") ]%string.

(** [findIndex]: the index of the first match from [index] on, else -1. *)
Fixpoint findIndex {A} (p : A -> bool) (l : list A) (index : Z) : Z :=
  match l with
  | [] => (-1)%Z
  | x :: l' => if p x then index else findIndex p l' (index + 1)%Z
  end.

(** The items that [updateStatusTimeline] appends, in order; [ti_time]
    is the instant whose local form is shown, if any. *)
Fixpoint timeline_items (booking : Booking) (currentStatusIndex : Z)
    (l : list (string * string)) (index : Z) : list TimelineItem :=
  match l with
  | [] => []
  | (itemStatus, description) :: l' =>
      let class :=
        if (index <? currentStatusIndex)%Z then Completed
        else if (index =? currentStatusIndex)%Z then Active
        else Plain in
      let timestamp :=
        if (index =? 0)%Z then bookingDate booking
        else if (index =? 1)%Z && bool_decide (is_Some (assignmentDate booking))
        then assignmentDate booking
        else if String.eqb itemStatus (status booking)
                && bool_decide (is_Some (lastStatusUpdate booking))
        then lastStatusUpdate booking
        else None in
      {| ti_class := class; ti_time := timestamp; ti_status := itemStatus;
         ti_description := description |}
      :: timeline_items booking currentStatusIndex l' (index + 1)%Z
  end.

Definition updateStatusTimeline (booking : Booking) : list TimelineItem :=
  let currentStatusIndex :=
    findIndex (fun s => String.eqb (fst s) (status booking)) allStatuses 0 in
  timeline_items booking currentStatusIndex allStatuses 0.

(** [generateTrackingLink] *)
Inductive HttpsErrorCode : Type :=
  | unauthenticated
  | invalid_argument
  | not_found
  | permission_denied
  | internal.

Record TrackingLink := {
  link_trackingId : string;
  link_trackingUrl : string;
  link_expiresAt : Z
}.

(** [trackingId] is the id that [generateUniqueId] draws; [now] is the
    reading of [Date.now()] and [serverTime] the value of
    [serverTimestamp()]; [auth] is [context.auth.uid], if any.  An error
    thrown inside the [try] is caught and thrown again as [internal]. *)
Definition generateTrackingLink (trackingId : string) (now serverTime : Z)
    (db : Firestore) (data_bookingId data_baseUrl : option string)
    (auth : option string) : Firestore * (HttpsErrorCode + TrackingLink) :=
  match auth with
  | None => (db, inl unauthenticated)
  | Some uid =>
      match data_bookingId with
      | None => (db, inl invalid_argument)
      | Some bookingId =>
          if String.eqb bookingId "" then (db, inl invalid_argument)
          else
            let rethrow (e : HttpsErrorCode) := (db, inl internal) in
            match bookings db !! bookingId with
            | None => rethrow not_found
            | Some booking =>
                let permitted :=
                  if negb (bool_decide (customerId booking = Some uid))
                     && negb (bool_decide (assignedDriver booking = Some uid))
                  then
                    match admins db !! uid with
                    | Some isAdmin => isAdmin
                    | None => false
                    end
                  else true in
                if negb permitted then rethrow permission_denied
                else
                  let expiresAt := (now + 24 * 60 * 60 * 1000)%Z in
                  let session :=
                    {| ts_bookingId := bookingId; createdAt := serverTime;
                       createdBy := uid; expiresAt := Some expiresAt;
                       accessCount := Some 0%Z; lastAccessedAt := None |} in
                  let db1 :=
                    set_trackingSessions (insert trackingId session) db in
                  let db2 :=
                    set_bookings
                      (alter (set_tracking (fun t =>
                         {| enabled := Some true;
                            startTime := Some serverTime;
                            shareableLink := Some trackingId;
                            lastUpdateTime := lastUpdateTime t;
                            tracking_currentLocation :=
                              tracking_currentLocation t;
                            driverBatteryLevel := driverBatteryLevel t;
                            distance_remaining := distance_remaining t;
                            estimatedArrival := estimatedArrival t |}))
                         bookingId) db1 in
                  let baseUrl :=
                    match data_baseUrl with
                    | Some u => if String.eqb u "" then "https://fikaconnect.com"
                                else u
                    | None => "https://fikaconnect.com"
                    end in
                  (db2,
                   inr {| link_trackingId := trackingId;
                          link_trackingUrl :=
                            (baseUrl ++ "/tracking.html?id=" ++ trackingId)%string;
                          link_expiresAt := expiresAt |})
            end
      end
  end.

(** [cleanupExpiredTrackingSessions]: the query [expiresAt < now] matches
    the sessions that have an expiry time before [now]. *)
Definition expired_before (now : Z) (s : TrackingSession) : bool :=
  match expiresAt s with
  | Some t => (t <? now)%Z
  | None => false
  end.

Inductive CleanupLog : Type :=
  | No_expired_sessions
  | Deleted_sessions (count : nat).

Definition cleanupExpiredTrackingSessions (now : Z) (db : Firestore)
    : Firestore * CleanupLog :=
  let expiredSessions :=
    filter (fun kv => expired_before now kv.2 = true) (trackingSessions db) in
  if decide (expiredSessions = ∅) then (db, No_expired_sessions)
  else
    (set_trackingSessions (fun m => m ∖ expiredSessions) db,
     Deleted_sessions (size expiredSessions)).

End Tracking.

(** ** The Firestore security rules *)

Module Rules.

(** The [isDriver] field of a user document.  Reading a field that a
    document lacks is an error, which fails the condition that reads
    it. *)
Inductive IsDriverField : Type :=
  | Absent
  | Null
  | Bool (b : bool).

(** What the rules read of the stored documents: the [isDriver] field of
    each user document, for each admin document whether its [isAdmin] is
    [true], and the [customerId] and [driverId] of each booking. *)
Record BookingFields := {
  bf_customerId : option string;
  bf_driverId : option string
}.

Record Database := {
  user_isDriver : gmap string IsDriverField;
  admin_isAdmin : gmap string bool;
  booking_fields : gmap string BookingFields
}.

Inductive Method : Type := read | create | update | delete.

(** A request: [request.auth.uid] if any, the method, and of the
    document being written its [customerId], its [driverId], and the keys
    in which it differs from the stored one
    ([request.resource.data.diff(resource.data).affectedKeys()]). *)
Record Request := {
  auth : option string;
  method : Method;
  resource_customerId : option string;
  resource_driverId : option string;
  affectedKeys : gset string
}.

Section Functions.
Context (db : Database) (request : Request).

Definition isAuthenticated : bool := bool_decide (is_Some (auth request)).

(** A condition on [request.auth.uid]; without authentication the read of
    [uid] fails, and so does the condition. *)
Definition with_uid (cond : string -> bool) : bool :=
  match auth request with
  | Some uid => cond uid
  | None => false
  end.

Definition isAdmin : bool :=
  isAuthenticated
  && with_uid (fun uid => bool_decide (admin_isAdmin db !! uid = Some true)).

Definition isDriver : bool :=
  isAuthenticated
  && with_uid (fun uid =>
       match user_isDriver db !! uid with
       | Some (Bool true) => true
       | _ => false
       end).

Definition isSender : bool :=
  isAuthenticated
  && with_uid (fun uid =>
       match user_isDriver db !! uid with
       | Some (Bool false) | Some Null => true
       | _ => false
       end).

(** [get] of a missing booking fails, and the condition with it. *)
Definition isOwnerOfBooking (bookingId : string) : bool :=
  isAuthenticated
  && match booking_fields db !! bookingId with
     | Some b => bool_decide (bf_customerId b = auth request)
     | None => false
     end.

Definition isAssignedDriver (bookingId : string) : bool :=
  isAuthenticated
  && match booking_fields db !! bookingId with
     | Some b => bool_decide (bf_driverId b = auth request)
     | None => false
     end.

Definition hasOnly (allowed : list string) : bool :=
  bool_decide (affectedKeys request ⊆ list_to_set allowed).

(** [match /users/{userId}]: [allow write] covers create, update and
    delete, and a request is allowed when any [allow] grants it. *)
Definition allow_users (userId : string) : bool :=
  let own := isAuthenticated && with_uid (String.eqb userId) in
  match method request with
  | read => isAuthenticated && (with_uid (String.eqb userId) || isAdmin)
  | create => own || isAuthenticated
  | update | delete => own
  end.

Definition allow_admins (adminId : string) : bool :=
  match method request with
  | read => isAdmin
  | _ => isAuthenticated && with_uid (String.eqb adminId) && isAdmin
  end.

Definition allow_bookings (bookingId : string) : bool :=
  match method request with
  | read =>
      isAuthenticated
      && (isOwnerOfBooking bookingId || isAssignedDriver bookingId || isAdmin)
  | create =>
      isAuthenticated && isSender
      && bool_decide (resource_customerId request = auth request)
  | update =>
      isAuthenticated
      && ((isOwnerOfBooking bookingId && hasOnly ["status"; "customerNotes"])
          || (isAssignedDriver bookingId
              && hasOnly ["status"; "driverNotes"; "currentLocation"])
          || isAdmin)
  | delete => isAuthenticated && isAdmin
  end.

Definition allow_collectionPoints (pointId : string) : bool :=
  match method request with
  | read => true
  | _ => isAuthenticated && isAdmin
  end.

(** The rules that the tracking plan adds. *)
Definition allow_driverLocations (locationId : string) : bool :=
  match method request with
  | read => true
  | create =>
      isAuthenticated
      && bool_decide (resource_driverId request = auth request)
  | update | delete => false
  end.

Definition allow_trackingSessions (sessionId : string) : bool :=
  match method request with
  | read => true
  | create => isAuthenticated
  | update => false
  | delete => isAuthenticated && isAdmin
  end.

End Functions.

End Rules.

(** * Properties *)

(** ** Binary64 arithmetic

    Facts about the primitive floats, derived from the specification of
    their operations ([FloatAxioms]) over [SpecFloat]. *)

Module Binary64.

Local Open Scope float_scope.

(** *** Order *)

Lemma SFcompare_nan_l y : SFcompare S754_nan y = None.
Proof. reflexivity. Qed.

Lemma SFcompare_nan_r x : SFcompare x S754_nan = None.
Proof. by destruct x. Qed.

Lemma SFcompare_antisym x y :
  SFcompare y x = CompOpp <$> SFcompare x y.
Proof.
  destruct x as [sx|sx| |sx mx ex], y as [sy|sy| |sy my ey]; simpl;
    try reflexivity;
    try (by destruct sx); try (by destruct sy); try (by destruct sx, sy).
  destruct sx, sy; simpl; try reflexivity;
    rewrite (Z.compare_antisym ey ex), (ZC4 my mx);
    destruct (ey ?= ex)%Z; simpl; try reflexivity;
    by destruct (Pos.compare_cont Eq mx my).
Qed.

Lemma SFcompare_refl x : x <> S754_nan -> SFcompare x x = Some Eq.
Proof.
  destruct x as [s|s| |s m e]; simpl; try done; try (by destruct s).
  intros _. unfold SFcompare.
  change (Pos.compare_cont Eq m m) with (m ?= m)%positive.
  rewrite Z.compare_refl, Pos.compare_refl. by destruct s.
Qed.

Lemma is_nan_spec x : is_nan x = true <-> Prim2SF x = S754_nan.
Proof.
  unfold is_nan. rewrite FloatAxioms.eqb_spec. unfold SFeqb. split.
  - destruct (Prim2SF x) eqn:E; try done; intros H;
      rewrite SFcompare_refl in H; done.
  - intros ->. reflexivity.
Qed.

Lemma is_nan_false x : is_nan x = false <-> Prim2SF x <> S754_nan.
Proof.
  rewrite <- is_nan_spec. destruct (is_nan x); split; intros; done.
Qed.

Lemma SFcompare_some x y :
  x <> S754_nan -> y <> S754_nan -> exists c, SFcompare x y = Some c.
Proof.
  destruct x as [sx|sx| |sx mx ex], y as [sy|sy| |sy my ey]; simpl;
    intros; try done; eauto.
Qed.

(** On numbers, [<] and [>=] are complementary. *)
Lemma leb_of_not_ltb x y :
  is_nan x = false -> is_nan y = false -> (x <? y) = false -> (y <=? x) = true.
Proof.
  rewrite !is_nan_false, FloatAxioms.ltb_spec, FloatAxioms.leb_spec. unfold SFltb, SFleb.
  intros Hx Hy. rewrite (SFcompare_antisym (Prim2SF x)).
  destruct (SFcompare_some _ _ Hx Hy) as [c ->]. by destruct c.
Qed.

(** *** Digits and shifts *)

Local Open Scope Z_scope.

Lemma iter_pos_iter {A} (f : A -> A) p x : SpecFloat.iter_pos f p x = Pos.iter f x p.
Proof.
  revert x. induction p as [p IH|p IH|]; intros x; simpl; try done.
  - by rewrite !IH, !Pos.iter_swap.
  - by rewrite !IH.
Qed.

Lemma digits2_bounds m :
  2 ^ (Z.pos (digits2_pos m) - 1) <= Z.pos m < 2 ^ Z.pos (digits2_pos m).
Proof.
  induction m as [m IH|m IH|]; simpl digits2_pos.
  - rewrite Pos2Z.inj_succ.
    replace (Z.succ (Z.pos (digits2_pos m)) - 1)
      with (Z.succ (Z.pos (digits2_pos m) - 1)) by lia.
    rewrite !Z.pow_succ_r by lia. lia.
  - rewrite Pos2Z.inj_succ.
    replace (Z.succ (Z.pos (digits2_pos m)) - 1)
      with (Z.succ (Z.pos (digits2_pos m) - 1)) by lia.
    rewrite !Z.pow_succ_r by lia. lia.
  - simpl. lia.
Qed.


Lemma pos_iter_xO m k : Z.pos (Pos.iter xO m k) = Z.pos m * 2 ^ Z.pos k.
Proof.
  induction k as [|k IH] using Pos.peano_ind.
  - simpl. lia.
  - rewrite Pos.iter_succ, Pos2Z.inj_succ, Z.pow_succ_r by lia.
    rewrite Pos2Z.inj_xO, IH. lia.
Qed.

Lemma shl_align_spec mx ex ex' :
  let '(mz, ez) := shl_align mx ex ex' in
  ez = Z.min ex ex' /\ Z.pos mz = Z.pos mx * 2 ^ (ex - ez).
Proof.
  unfold shl_align. destruct (ex' - ex) as [|d|d] eqn:E.
  - rewrite Z.min_l by lia. by rewrite Z.sub_diag, Z.mul_1_r.
  - rewrite Z.min_l by lia. by rewrite Z.sub_diag, Z.mul_1_r.
  - rewrite Z.min_r by lia. split; [done|].
    rewrite pos_iter_xO. do 2 f_equal. lia.
Qed.

Lemma shr_1_m r : 0 <= shr_m r -> shr_m (shr_1 r) = shr_m r / 2.
Proof.
  destruct r as [m r s]. simpl. intros Hm. rewrite <- Z.div2_div.
  by destruct m as [|[p|p|]|p].
Qed.

Lemma shr_iter_m r k :
  0 <= shr_m r -> shr_m (Pos.iter shr_1 r k) = shr_m r / 2 ^ Z.pos k.
Proof.
  intros Hr. induction k as [|k IH] using Pos.peano_ind.
  - cbn [Pos.iter]. rewrite shr_1_m by done. by rewrite Z.pow_1_r.
  - rewrite Pos.iter_succ, shr_1_m, IH.
    + rewrite Pos2Z.inj_succ, Z.pow_succ_r by lia.
      rewrite Z.div_div by lia. f_equal. lia.
    + rewrite IH. apply Z.div_pos; lia.
Qed.



(** *** Rounding: [binary_round_aux] *)

(** The number of low bits that [shr_fexp] drops. *)
Definition dropped (m e : Z) : Z :=
  Z.max 0 (fexp prec emax (Zdigits2 m + e) - e).

Lemma shr_m_of_loc m l : shr_m (shr_record_of_loc m l) = m.
Proof. by destruct l as [|[]]. Qed.

Lemma shr_fexp_spec m e l :
  0 <= m ->
  shr_m (shr_fexp prec emax m e l).1 = m / 2 ^ dropped m e
  /\ (shr_fexp prec emax m e l).2 = e + dropped m e.
Proof.
  intros Hm. unfold shr_fexp, shr, dropped.
  destruct (fexp prec emax (Zdigits2 m + e) - e) as [|p|p]; simpl.
  - by rewrite shr_m_of_loc, Z.div_1_r, Z.add_0_r.
  - rewrite iter_pos_iter, shr_iter_m by (by rewrite shr_m_of_loc).
    by rewrite shr_m_of_loc.
  - by rewrite shr_m_of_loc, Z.div_1_r, Z.add_0_r.
Qed.


Lemma round_nearest_even_bounds m l :
  m <= round_nearest_even m l <= m + 1.
Proof.
  destruct l as [|[]]; simpl; try lia. destruct (Z.even m); lia.
Qed.

Lemma dropped_nonneg m e : 0 <= dropped m e.
Proof. unfold dropped. lia. Qed.


(** Above the least exponent, dropping bits leaves a positive mantissa. *)
Lemma dropped_pos m e :
  emin <= e -> 0 < Z.pos m / 2 ^ dropped (Z.pos m) e.
Proof.
  intros He. unfold dropped, fexp. simpl Zdigits2.
  destruct (digits2_bounds m) as [Hl _].
  set (d := Z.pos (digits2_pos m)) in *.
  destruct (Z.le_gt_cases (Z.max (d + e - prec) emin - e) 0) as [H|H];
    unfold SpecFloat.emin, emax, prec in *.
  - rewrite Z.max_l by lia. rewrite Z.div_1_r. lia.
  - rewrite Z.max_r by lia.
    assert (Z.max (d + e - 53) (3 - 1024 - 53) - e = d - 53) as -> by lia.
    assert (0 < d - 53) by lia.
    apply Z.lt_le_trans with (2 ^ 52); [done|].
    apply Z.div_le_lower_bound; [lia|].
    rewrite <- Z.pow_add_r by lia.
    by replace (d - 53 + 52) with (d - 1) by lia.
Qed.


Definition signed_nonzero (s : bool) (x : spec_float) : Prop :=
  match x with
  | S754_infinity s' | S754_finite s' _ _ => s' = s
  | _ => False
  end.


Lemma binary_round_aux_nonzero s m e l :
  emin <= e ->
  signed_nonzero s (binary_round_aux prec emax s (Z.pos m) e l).
Proof.
  intros He. unfold binary_round_aux.
  destruct (shr_fexp_spec (Z.pos m) e l) as [H1 H1']; [lia|].
  destruct (shr_fexp prec emax (Z.pos m) e l) as [mrs' e'].
  simpl in H1, H1'.
  set (m2 := round_nearest_even _ _).
  assert (0 < m2) as Hm2.
  { pose proof (round_nearest_even_bounds (shr_m mrs')
                  (loc_of_shr_record mrs')).
    pose proof (dropped_pos m e He). unfold m2. lia. }
  destruct m2 as [|p2|p2] eqn:E2; try lia.
  destruct (shr_fexp_spec (Z.pos p2) e' loc_Exact) as [H2 _]; [done|].
  destruct (shr_fexp prec emax (Z.pos p2) e' loc_Exact) as [mrs'' e''].
  simpl in H2.
  assert (0 < shr_m mrs'').
  { rewrite H2. apply dropped_pos. pose proof (dropped_nonneg (Z.pos m) e).
    lia. }
  destruct (shr_m mrs''); simpl; try done; try lia.
  by destruct (_ <=? _).
Qed.


Local Open Scope float_scope.

Lemma leb_refl x : is_nan x = false -> (x <=? x) = true.
Proof.
  rewrite is_nan_false, leb_spec. intros H. unfold SFleb.
  by rewrite SFcompare_refl.
Qed.

Lemma leb_of_ltb x y : (x <? y) = true -> (x <=? y) = true.
Proof.
  rewrite ltb_spec, leb_spec. unfold SFltb, SFleb.
  by destruct (SFcompare _ _) as [[]|].
Qed.

(** *** Numbers that are not negative *)












Local Open Scope Z_scope.

(** *** Exactly representable results *)

Lemma pow2_pos k : 0 <= k -> 0 < 2 ^ k.
Proof. intros. by apply Z.pow_pos_nonneg. Qed.






(** *** The order of binary64 numbers, as an order of integers *)

Lemma compare_cont_Eq p q : Pos.compare_cont Eq p q = (p ?= q)%positive.
Proof. reflexivity. Qed.

Lemma valid_finite s m e :
  valid_binary (S754_finite s m e) = true ->
  -1074 <= e <= 971
  /\ Z.pos (digits2_pos m) <= 53
  /\ (-1074 < e -> Z.pos (digits2_pos m) = 53).
Proof.
  unfold valid_binary, bounded, canonical_mantissa.
  intros [H1 H2]%andb_true_iff. apply Z.eqb_eq in H1. apply Z.leb_le in H2.
  revert H1 H2. unfold fexp, SpecFloat.emin, emax, prec. lia.
Qed.

(** The magnitude of a finite number, in units of [2^-1074]. *)
Definition magnitude (m : positive) (e : Z) : Z := Z.pos m * 2 ^ (e + 1074).

Lemma magnitude_pos s m e :
  valid_binary (S754_finite s m e) = true -> 0 < magnitude m e.
Proof.
  intros (He & _)%valid_finite. unfold magnitude.
  pose proof (pow2_pos (e + 1074)). lia.
Qed.

Lemma magnitude_lt s1 m1 e1 s2 m2 e2 :
  valid_binary (S754_finite s1 m1 e1) = true ->
  valid_binary (S754_finite s2 m2 e2) = true ->
  e1 < e2 -> magnitude m1 e1 < magnitude m2 e2.
Proof.
  intros (He1 & Hd1 & _)%valid_finite (He2 & _ & Hd2)%valid_finite Hlt.
  specialize (Hd2 ltac:(lia)). unfold magnitude.
  destruct (digits2_bounds m1) as [_ Hu]. destruct (digits2_bounds m2) as [Hl _].
  rewrite Hd2 in Hl.
  assert (Z.pos m1 < 2 ^ 53).
  { eapply Z.lt_le_trans; [exact Hu|]. apply Z.pow_le_mono_r; lia. }
  replace (e2 + 1074) with ((e2 - e1) + (e1 + 1074)) by lia.
  rewrite (Z.pow_add_r 2 (e2 - e1) (e1 + 1074)) by lia.
  assert (2 ^ 1 <= 2 ^ (e2 - e1)) by (apply Z.pow_le_mono_r; lia).
  pose proof (pow2_pos (e1 + 1074) ltac:(lia)) as Hp.
  rewrite Z.mul_assoc. apply Z.mul_lt_mono_pos_r; [done|].
  assert (2 ^ 53 = 2 ^ (53 - 1) * 2 ^ 1) as E by reflexivity.
  rewrite E in H. eapply Z.lt_le_trans; [exact H|].
  apply Z.mul_le_mono_nonneg; lia.
Qed.

Lemma magnitude_compare s1 m1 e1 s2 m2 e2 :
  valid_binary (S754_finite s1 m1 e1) = true ->
  valid_binary (S754_finite s2 m2 e2) = true ->
  match e1 ?= e2 with
  | Lt => Lt
  | Gt => Gt
  | Eq => Pos.compare_cont Eq m1 m2
  end = (magnitude m1 e1 ?= magnitude m2 e2).
Proof.
  intros H1 H2. destruct (Z.compare_spec e1 e2) as [->|Hlt|Hgt].
  - rewrite compare_cont_Eq. unfold magnitude.
    apply valid_finite in H2 as (He & _).
    pose proof (pow2_pos (e2 + 1074) ltac:(lia)) as Hp. symmetry.
    destruct (Pos.compare_spec m1 m2) as [->|Hm|Hm].
    + apply Z.compare_refl.
    + apply Z.compare_lt_iff, Z.mul_lt_mono_pos_r; [done|lia].
    + apply Z.compare_gt_iff, Z.mul_lt_mono_pos_r; [done|lia].
  - symmetry. apply Z.compare_lt_iff. by eapply magnitude_lt.
  - symmetry. apply Z.compare_gt_iff. by eapply magnitude_lt.
Qed.

(** The limit that no magnitude reaches. *)
Definition beyond : Z := 2 ^ 2100.

Lemma magnitude_below s m e :
  valid_binary (S754_finite s m e) = true -> magnitude m e < beyond.
Proof.
  intros (He & Hd & _)%valid_finite. unfold magnitude, beyond.
  destruct (digits2_bounds m) as [_ Hu].
  assert (Z.pos m < 2 ^ 53) as Hm.
  { eapply Z.lt_le_trans; [exact Hu|]. apply Z.pow_le_mono_r; lia. }
  assert (2 ^ (e + 1074) <= 2 ^ 2045) as Hp by (apply Z.pow_le_mono_r; lia).
  pose proof (pow2_pos (e + 1074) ltac:(lia)) as Hp0.
  pose proof (pow2_pos 2045 ltac:(lia)) as Hq0.
  assert (2 ^ 2100 = 2 ^ 53 * 2 ^ 2045 * 4) as -> by reflexivity.
  set (P := 2 ^ 2045) in *. set (Q := 2 ^ (e + 1074)) in *.
  set (R := 2 ^ 53) in *.
  assert (0 < R) by (by apply pow2_pos). nia.
Qed.

(** An integer that orders the numbers as [SFcompare] does. *)
Definition key (x : spec_float) : Z :=
  match x with
  | S754_zero _ | S754_nan => 0
  | S754_infinity s => if s then - beyond else beyond
  | S754_finite s m e => if s then - magnitude m e else magnitude m e
  end.

Lemma beyond_pos : 0 < beyond.
Proof. by apply pow2_pos. Qed.

Lemma SFcompare_key x y :
  valid_binary x = true -> valid_binary y = true ->
  x <> S754_nan -> y <> S754_nan ->
  SFcompare x y = Some (key x ?= key y).
Proof.
  pose proof beyond_pos as Hb.
  destruct x as [sx|sx| |sx mx ex], y as [sy|sy| |sy my ey];
    intros Hx Hy Nx Ny; try done; unfold SFcompare, key; f_equal;
    try pose proof (magnitude_pos _ _ _ Hx);
    try pose proof (magnitude_pos _ _ _ Hy);
    try pose proof (magnitude_below _ _ _ Hx);
    try pose proof (magnitude_below _ _ _ Hy).
  - destruct sy; symmetry;
      [apply Z.compare_gt_iff|apply Z.compare_lt_iff]; lia.
  - destruct sy; symmetry;
      [apply Z.compare_gt_iff|apply Z.compare_lt_iff]; lia.
  - destruct sx; symmetry;
      [apply Z.compare_lt_iff|apply Z.compare_gt_iff]; lia.
  - destruct sx, sy; symmetry;
      try apply Z.compare_refl;
      [apply Z.compare_lt_iff|apply Z.compare_gt_iff]; lia.
  - destruct sx; symmetry;
      [apply Z.compare_lt_iff|apply Z.compare_gt_iff]; destruct sy; lia.
  - destruct sx; symmetry;
      [apply Z.compare_lt_iff|apply Z.compare_gt_iff]; lia.
  - destruct sy; symmetry;
      [apply Z.compare_gt_iff|apply Z.compare_lt_iff]; destruct sx; lia.
  - pose proof (magnitude_compare sx mx ex sy my ey Hx Hy) as Hc.
    destruct sx, sy.
    + rewrite Z.compare_opp, (Z.compare_antisym (magnitude mx ex)), <- Hc.
      by destruct (ex ?= ey).
    + symmetry. apply Z.compare_lt_iff. lia.
    + symmetry. apply Z.compare_gt_iff. lia.
    + done.
Qed.

Definition fkey (x : float) : Z := key (Prim2SF x).

Lemma compare_key x y :
  is_nan x = false -> is_nan y = false ->
  SFcompare (Prim2SF x) (Prim2SF y) = Some (fkey x ?= fkey y).
Proof.
  intros Hx%is_nan_false Hy%is_nan_false.
  apply SFcompare_key; auto using Prim2SF_valid.
Qed.


Lemma leb_key x y :
  is_nan x = false -> is_nan y = false ->
  (x <=? y)%float = (fkey x <=? fkey y).
Proof.
  intros Hx Hy. rewrite leb_spec. unfold SFleb, Z.leb.
  rewrite (compare_key x y Hx Hy). by destruct (_ ?= _).
Qed.




Lemma leb_not_nan x y :
  (x <=? y)%float = true -> is_nan x = false /\ is_nan y = false.
Proof.
  rewrite leb_spec, !is_nan_false. unfold SFleb.
  destruct (Prim2SF x), (Prim2SF y); done.
Qed.

Lemma leb_trans x y z :
  (x <=? y)%float = true -> (y <=? z)%float = true -> (x <=? z)%float = true.
Proof.
  intros H1 H2. destruct (leb_not_nan _ _ H1), (leb_not_nan _ _ H2).
  rewrite leb_key in * by done. lia.
Qed.


(** *** The sign of a difference *)

Lemma binary_round_nonzero s m e :
  emin <= e -> signed_nonzero s (binary_round prec emax s m e).
Proof.
  intros He. unfold binary_round.
  pose proof (shl_align_spec m e (fexp prec emax (Z.pos (digits2_pos m) + e)))
    as Hs.
  destruct (shl_align _ _ _) as [mz ez]. destruct Hs as [-> _].
  apply binary_round_aux_nonzero.
  unfold fexp, SpecFloat.emin, emax, prec in *. lia.
Qed.

Lemma aligned_key s m e ez :
  -1074 <= ez <= e ->
  cond_Zopp s (Z.pos (shl_align m e ez).1) * 2 ^ (ez + 1074)
  = key (S754_finite s m e).
Proof.
  intros He. pose proof (shl_align_spec m e ez) as Hs.
  destruct (shl_align m e ez) as [mz ez']. destruct Hs as [-> Hm]. simpl.
  rewrite Z.min_r in Hm by lia. rewrite Hm. unfold magnitude.
  replace (e + 1074) with ((e - ez) + (ez + 1074)) by lia.
  rewrite (Z.pow_add_r 2 (e - ez) (ez + 1074)) by lia.
  destruct s; simpl; ring.
Qed.

Lemma SFltb_zero_signed s r :
  signed_nonzero s r -> SFltb (S754_zero false) r = negb s.
Proof. destruct r as [| | |s' m e]; simpl; try done; by intros ->; destruct s. Qed.

Lemma SFsub_pos x y :
  valid_binary x = true -> valid_binary y = true ->
  SFltb (S754_zero false) (SF64sub y x) = SFltb x y.
Proof.
  destruct x as [sx|sx| |sx mx ex], y as [sy|sy| |sy my ey];
    intros Hx Hy; try done;
    try (by destruct sx); try (by destruct sy); try (by destruct sx, sy).
  unfold SF64sub, SFsub.
  destruct (valid_finite _ _ _ Hx) as (Hex & _).
  destruct (valid_finite _ _ _ Hy) as (Hey & _).
  set (ez := Z.min ey ex).
  pose proof (aligned_key sy my ey ez ltac:(lia)) as Ky.
  pose proof (aligned_key sx mx ex ez ltac:(lia)) as Kx.
  set (zy := cond_Zopp sy _) in *. set (zx := cond_Zopp sx _) in *.
  pose proof (pow2_pos (ez + 1074) ltac:(lia)) as Hp.
  unfold SFltb at 2. rewrite SFcompare_key by done. rewrite <- Kx, <- Ky.
  destruct (zy - zx) as [|p|p] eqn:Ez; unfold binary_normalize.
  - assert (zx = zy) as -> by lia. by rewrite Z.compare_refl.
  - rewrite (SFltb_zero_signed false)
      by (apply binary_round_nonzero; unfold SpecFloat.emin, emax, prec; lia).
    symmetry. simpl.
    assert (zx * 2 ^ (ez + 1074) < zy * 2 ^ (ez + 1074)) as ->%Z.compare_lt_iff
      by (apply Z.mul_lt_mono_pos_r; lia). done.
  - rewrite (SFltb_zero_signed true)
      by (apply binary_round_nonzero; unfold SpecFloat.emin, emax, prec; lia).
    symmetry. simpl.
    assert (zy * 2 ^ (ez + 1074) < zx * 2 ^ (ez + 1074)) as ->%Z.compare_gt_iff
      by (apply Z.mul_lt_mono_pos_r; lia). done.
Qed.

(** A difference [y - x] is positive exactly when [x < y]: the comparator
    [(a, b) => b - a] orders as [<] does. *)
Lemma sub_pos_iff x y : (0 <? y - x)%float = (x <? y)%float.
Proof.
  rewrite !ltb_spec, sub_spec. change (Prim2SF 0) with (S754_zero false).
  apply SFsub_pos; apply Prim2SF_valid.
Qed.

(** *** Integer multiples *)





(** *** [NaN] is absorbing *)

Local Open Scope float_scope.

Lemma nan_spec : Prim2SF nan = S754_nan.
Proof. reflexivity. Qed.

Lemma mul_nan_r x : x * nan = nan.
Proof.
  apply Prim2SF_inj. rewrite mul_spec, nan_spec.
  by destruct (Prim2SF x).
Qed.

Lemma mul_nan_l x : nan * x = nan.
Proof. apply Prim2SF_inj. by rewrite mul_spec, nan_spec. Qed.

Lemma add_nan_r x : x + nan = nan.
Proof.
  apply Prim2SF_inj. rewrite add_spec, nan_spec.
  by destruct (Prim2SF x).
Qed.

Lemma add_nan_l x : nan + x = nan.
Proof. apply Prim2SF_inj. by rewrite add_spec, nan_spec. Qed.

Lemma sub_nan_r x : x - nan = nan.
Proof.
  apply Prim2SF_inj. rewrite sub_spec, nan_spec.
  by destruct (Prim2SF x).
Qed.

Lemma sub_nan_l x : nan - x = nan.
Proof. apply Prim2SF_inj. by rewrite sub_spec, nan_spec. Qed.

Lemma div_nan_l x : nan / x = nan.
Proof. apply Prim2SF_inj. by rewrite div_spec, nan_spec. Qed.

End Binary64.

(** ** The built-ins *)

Module JSFacts.

Import JS Binary64.
Local Open Scope float_scope.


Local Open Scope Z_scope.






End JSFacts.

(** ** The fare engine *)

Module FareSpec.

Import JS Fare Binary64 JSFacts.
Local Open Scope float_scope.

(** A stand-in host for the examples: truncated series, accurate for the
    short distances of the examples. *)
Definition small_angle_math : MathLib :=
  {| Math_sin := fun x => x - x * x * x / 6;
     Math_cos := fun x => 1 - x * x / 2;
     Math_atan2 := fun y x => y / x - (y / x) * (y / x) * (y / x) / 3 |}.

Definition kampala_road : Location :=
  {| lat := JNum 0.347596; lng := JNum 32.582520 |}.

Definition entebbe_road : Location :=
  {| lat := JNum 0.3; lng := JNum 32.5 |}.

Definition sample_booking : Booking :=
  {| deliveryType := "direct";
     packageDetails :=
       Some {| weight := 5.2; size := "medium"; isFragile := true |};
     pickup := Some kampala_road;
     dropoff := Some entebbe_road;
     paymentDetails := Some {| estimatedFare := JNum 1 |} |}.

Definition is_error (e : LogEntry) : bool :=
  match e with
  | Error_invalid_location | Error_invalid_collection_point
  | Error_invalid_delivery_type _ | Error_failed_to_calculate => true
  | _ => false
  end.


(** *** The size multiplier *)

Lemma inherited_names s :
  inherited s = true -> s ∈ Object_prototype_keys.
Proof.
  unfold inherited. rewrite existsb_exists. intros (k & Hk & Heq).
  apply String.eqb_eq in Heq. subst. by apply list_elem_of_In.
Qed.

Lemma inherited_multiplier s :
  inherited s = true ->
  js_or (get_prop SIZE_MULTIPLIERS s) (JNum 1.0) = JObj.
Proof.
  intros H. apply inherited_names in H. unfold Object_prototype_keys in H.
  repeat (apply elem_of_cons in H as [->|H]; [reflexivity|]).
  by apply elem_of_nil in H.
Qed.

(** C10 (the code at the failing inputs). A size category that names a
    member inherited from [Object.prototype], such as [constructor], is
    not in the table, yet the multiplier read for it is that member, not
    1.0: as an operand of [*] it is [NaN], and so are the fare, the
    commission and the payout of both fare functions. *)
Theorem inherited_size_gives_nan_fare distance weight sizeCategory isFragile :
  inherited sizeCategory = true ->
  own_lookup SIZE_MULTIPLIERS sizeCategory = None
  /\ calculateDirectDeliveryFare distance weight sizeCategory isFragile
     = {| totalFare := nan; commission := nan; driverPayout := nan |}
  /\ calculateCollectionPointFare distance weight sizeCategory isFragile
     = {| totalFare := nan; commission := nan; driverPayout := nan |}.
Proof.
  intros H. split; [|split].
  - apply inherited_names in H. unfold Object_prototype_keys in H.
    repeat (apply elem_of_cons in H as [->|H]; [reflexivity|]).
    by apply elem_of_nil in H.
  - unfold calculateDirectDeliveryFare.
    rewrite (inherited_multiplier _ H). cbn [ToNumber].
    rewrite mul_nan_r, add_nan_r, add_nan_l. reflexivity.
  - unfold calculateCollectionPointFare.
    rewrite (inherited_multiplier _ H). cbn [ToNumber].
    rewrite mul_nan_r, add_nan_r, add_nan_l. reflexivity.
Qed.

Lemma inherited_size_gives_nan_fare_witness :
  calculateDirectDeliveryFare 12.5 5.2 "constructor" true
  = {| totalFare := nan; commission := nan; driverPayout := nan |}.
Proof.
  exact (proj1 (proj2 (inherited_size_gives_nan_fare 12.5 5.2 "constructor"
                         true eq_refl))).
Defined.

(** A size category that is neither in the table nor inherited is priced
    as [small]. *)
Lemma unknown_size_multiplier s :
  own_lookup SIZE_MULTIPLIERS s = None -> inherited s = false ->
  js_or (get_prop SIZE_MULTIPLIERS s) (JNum 1.0) = JNum 1.0.
Proof. intros Ho Hi. unfold get_prop. by rewrite Ho, Hi. Qed.

Lemma unknown_size_priced_as_small distance weight s isFragile :
  own_lookup SIZE_MULTIPLIERS s = None -> inherited s = false ->
  calculateDirectDeliveryFare distance weight s isFragile
  = calculateDirectDeliveryFare distance weight "small" isFragile
  /\ calculateCollectionPointFare distance weight s isFragile
     = calculateCollectionPointFare distance weight "small" isFragile.
Proof.
  intros Ho Hi. unfold calculateDirectDeliveryFare, calculateCollectionPointFare.
  by rewrite (unknown_size_multiplier s Ho Hi).
Qed.

Lemma unknown_size_priced_as_small_witness :
  calculateDirectDeliveryFare 12.5 5.2 "huge" true
  = calculateDirectDeliveryFare 12.5 5.2 "small" true
  /\ calculateCollectionPointFare 12.5 5.2 "huge" true
     = calculateCollectionPointFare 12.5 5.2 "small" true.
Proof.
  exact (unknown_size_priced_as_small 12.5 5.2 "huge" true eq_refl eq_refl).
Defined.

(** *** The two fare functions *)








(** *** The booking trigger *)

Section Trigger.
Context {M : MathLib}.


(** The host functions map [NaN] to [NaN], as ECMAScript requires of
    [Math.sin] and [Math.atan2]. *)
Definition nan_preserving : Prop :=
  Math_sin nan = nan /\ Math_atan2 nan nan = nan.

Lemma getDistance_without_longitude start end_ :
  nan_preserving -> lng start = JUndefined ->
  getDistance start end_ = nan.
Proof.
  intros [Hsin Hatan] Hlng. unfold getDistance. rewrite Hlng. cbn [ToNumber].
  rewrite sub_nan_r, mul_nan_l, !div_nan_l, Hsin, !mul_nan_r, add_nan_r.
  change (sqrt nan) with nan. rewrite sub_nan_r. change (sqrt nan) with nan.
  by rewrite Hatan, !mul_nan_r.
Qed.

Lemma direct_fare_of_nan_distance w s fr :
  calculateDirectDeliveryFare nan w s fr
  = {| totalFare := nan; commission := nan; driverPayout := nan |}.
Proof.
  unfold calculateDirectDeliveryFare.
  rewrite mul_nan_l, add_nan_r, !add_nan_l. reflexivity.
Qed.

(** C4 (the code at the failing input). A direct booking whose pickup has
    a latitude but no longitude passes the location check: the trigger
    returns without an error in the log, having written [NaN] as distance,
    fare, commission and payout. *)
Theorem direct_without_longitude_is_finalized bookingData pd pay p d :
  nan_preserving ->
  deliveryType bookingData = "direct"%string ->
  packageDetails bookingData = Some pd ->
  paymentDetails bookingData = Some pay ->
  pickup bookingData = Some p -> dropoff bookingData = Some d ->
  truthy (lat p) = true -> truthy (lat d) = true ->
  lng p = JUndefined ->
  validateAndFinalizeBooking bookingData
  = {| logged := [Info_processing; Info_finalized];
       written := Some {| upd_estimatedFare := nan; upd_commission := nan;
                          upd_driverPayout := nan; upd_distance := nan;
                          upd_lastUpdated := serverTimestamp |};
       completion := Returned |}.
Proof.
  intros HM Ht Hpd Hpay Hp Hd Hlp Hld Hlng.
  unfold validateAndFinalizeBooking, price. rewrite Hpd, Ht, Hp, Hd.
  cbn [String.eqb Ascii.eqb Bool.eqb]. rewrite Hlp, Hld. cbn [negb orb].
  rewrite (getDistance_without_longitude p d HM Hlng).
  rewrite direct_fare_of_nan_distance, Hpay. cbn.
  rewrite sub_nan_l. reflexivity.
Qed.

End Trigger.

Lemma small_angle_math_nan_preserving :
  nan_preserving (M := small_angle_math).
Proof. split; reflexivity. Qed.

Definition booking_without_longitude : Booking :=
  {| deliveryType := "direct";
     packageDetails :=
       Some {| weight := 5.2; size := "medium"; isFragile := true |};
     pickup := Some {| lat := JNum 0.347596; lng := JUndefined |};
     dropoff := Some entebbe_road;
     paymentDetails := Some {| estimatedFare := JNum 15000 |} |}.

Lemma direct_without_longitude_is_finalized_witness :
  (upd_estimatedFare
     <$> written (validateAndFinalizeBooking (M := small_angle_math)
                    booking_without_longitude))
  = Some nan.
Proof.
  rewrite (direct_without_longitude_is_finalized (M := small_angle_math)
             booking_without_longitude _ _ _ _
             small_angle_math_nan_preserving eq_refl eq_refl eq_refl
             eq_refl eq_refl eq_refl eq_refl eq_refl).
  reflexivity.
Defined.


(** *** Rejections and failures of the trigger *)

(** A point that is present with a truthy latitude: what the location
    check of a direct delivery asks of pickup and dropoff. *)
Definition has_latitude (l : option Location) : bool :=
  match l with
  | Some p => truthy (lat p)
  | None => false
  end.

Definition hub_with_latitude (v : jsval) : option CollectionPoint :=
  find (fun p => strict_eq_num (cp_lat p) v) collectionPoints.

Definition equator_booking : Booking :=
  {| deliveryType := "direct";
     packageDetails :=
       Some {| weight := 5.2; size := "medium"; isFragile := true |};
     pickup := Some {| lat := JNum 0; lng := JNum 32.58 |};
     dropoff := Some entebbe_road;
     paymentDetails := Some {| estimatedFare := JNum 15000 |} |}.

Definition hub_booking (from to : float) : Booking :=
  {| deliveryType := "collection_point";
     packageDetails :=
       Some {| weight := 5.2; size := "medium"; isFragile := true |};
     pickup := Some {| lat := JNum from; lng := JUndefined |};
     dropoff := Some {| lat := JNum to; lng := JUndefined |};
     paymentDetails := Some {| estimatedFare := JNum 15000 |} |}.

Lemma is_nan_eq x : is_nan x = true -> x = nan.
Proof.
  intros H%is_nan_spec. apply Prim2SF_inj. by rewrite H.
Qed.

Section Trigger.
Context {M : MathLib}.

Lemma price_ended log b pd out :
  price log b pd = inl out -> written out = None.
Proof.
  unfold price. repeat case_match; intros [= <-]; done.
Qed.

(** Whatever the booking, the trigger writes only when it finalizes: a
    write comes with a normal return, a log without any error entry that
    ends with the finalization entry. *)
Theorem trigger_writes_only_when_finalized bookingData :
  let out := validateAndFinalizeBooking bookingData in
  is_Some (written out) ->
  completion out = Returned
  /\ forallb (fun e => negb (is_error e)) (logged out) = true
  /\ last (logged out) = Some Info_finalized.
Proof.
  unfold validateAndFinalizeBooking.
  destruct (packageDetails bookingData) as [pd|]; [|by intros []].
  destruct (price _ _ _) as [out|[distance fare]] eqn:Hp.
  - rewrite (price_ended _ _ _ _ Hp). by intros [].
  - destruct (paymentDetails bookingData) as [pay|]; [|by intros []].
    intros _. cbn. destruct (1 <? _); cbn; done.
Qed.

(** A direct booking with package details is rejected as an invalid
    location, with nothing written, exactly when its pickup or its
    dropoff is absent or has a latitude that is absent, zero or [NaN]. *)
Theorem direct_location_check bookingData pd :
  deliveryType bookingData = "direct"%string ->
  packageDetails bookingData = Some pd ->
  validateAndFinalizeBooking bookingData
  = rejected [Info_processing; Error_invalid_location]
  <-> has_latitude (pickup bookingData) && has_latitude (dropoff bookingData)
      = false.
Proof.
  intros Ht Hpd. unfold validateAndFinalizeBooking, price.
  rewrite Hpd, Ht. cbn [String.eqb Ascii.eqb Bool.eqb].
  destruct (pickup bookingData) as [p|], (dropoff bookingData) as [d|];
    cbn [has_latitude andb]; try (split; done).
  - destruct (truthy (lat p)), (truthy (lat d)); cbn; try (split; done).
    split; [|done]. unfold rejected, threw.
    by destruct (paymentDetails bookingData).
  - by rewrite andb_false_r.
Qed.

(** A hub-to-hub booking names its hubs by the latitude of pickup and
    dropoff: with both points present, it is rejected as invalid
    collection point data exactly when one of the two latitudes is not
    that of a hub. *)
Theorem hub_resolution_by_latitude bookingData pd p d :
  deliveryType bookingData = "collection_point"%string ->
  packageDetails bookingData = Some pd ->
  pickup bookingData = Some p -> dropoff bookingData = Some d ->
  validateAndFinalizeBooking bookingData
  = rejected [Info_processing; Error_invalid_collection_point]
  <-> hub_with_latitude (lat p) = None \/ hub_with_latitude (lat d) = None.
Proof.
  intros Ht Hpd Hp Hd. unfold validateAndFinalizeBooking, price.
  rewrite Hpd, Ht, Hp, Hd. cbn [String.eqb Ascii.eqb Bool.eqb].
  fold (hub_with_latitude (lat p)). fold (hub_with_latitude (lat d)).
  destruct (hub_with_latitude (lat p)) as [sp|],
    (hub_with_latitude (lat d)) as [ep|]; try (split; auto; done).
  split; [|by intros [|]]. unfold rejected, threw.
  by destruct (paymentDetails bookingData).
Qed.

(** The nested objects are read without a check. A booking without
    package details throws before any validation, whatever its type and
    geometry; a hub-to-hub booking without pickup or dropoff throws; and
    a booking that has been priced throws if it has no payment details.
    In each case nothing is written. *)
Theorem missing_objects_throw bookingData :
  (packageDetails bookingData = None ->
   validateAndFinalizeBooking bookingData = threw [Info_processing])
  /\ (forall pd,
        packageDetails bookingData = Some pd ->
        deliveryType bookingData = "collection_point"%string ->
        pickup bookingData = None \/ dropoff bookingData = None ->
        validateAndFinalizeBooking bookingData = threw [Info_processing])
  /\ (forall pd distance fare,
        packageDetails bookingData = Some pd ->
        price [Info_processing] bookingData pd = inr (distance, fare) ->
        paymentDetails bookingData = None ->
        validateAndFinalizeBooking bookingData = threw [Info_processing]).
Proof.
  unfold validateAndFinalizeBooking. split; [|split].
  - by intros ->.
  - intros pd -> Ht Hm. unfold price. rewrite Ht.
    cbn [String.eqb Ascii.eqb Bool.eqb].
    by destruct Hm as [-> | ->]; [|destruct (pickup bookingData)].
  - by intros pd distance fare -> -> ->.
Qed.

End Trigger.

Lemma trigger_writes_only_when_finalized_witness :
  last (logged (validateAndFinalizeBooking (M := small_angle_math)
                  sample_booking))
  = Some Info_finalized.
Proof.
  apply (trigger_writes_only_when_finalized (M := small_angle_math)
           sample_booking).
  by eexists.
Defined.

Lemma direct_location_check_witness :
  validateAndFinalizeBooking (M := small_angle_math) equator_booking
  = rejected [Info_processing; Error_invalid_location].
Proof.
  by apply (direct_location_check (M := small_angle_math) equator_booking _
              eq_refl eq_refl).
Defined.

Lemma hub_resolution_by_latitude_witness :
  validateAndFinalizeBooking (M := small_angle_math) (hub_booking 0.3150 1)
  = rejected [Info_processing; Error_invalid_collection_point].
Proof.
  apply (hub_resolution_by_latitude (M := small_angle_math)
           (hub_booking 0.3150 1) _ _ _ eq_refl eq_refl eq_refl eq_refl).
  by right.
Defined.

(** [Math.max] does not floor a fare that is not a number: with a [NaN]
    distance or weight, fare, commission and payout are all [NaN], for
    both kinds of delivery. *)
Theorem nan_input_gives_nan_fare distance weight sizeCategory isFragile :
  is_nan distance = true \/ is_nan weight = true ->
  calculateDirectDeliveryFare distance weight sizeCategory isFragile
  = {| totalFare := nan; commission := nan; driverPayout := nan |}
  /\ calculateCollectionPointFare distance weight sizeCategory isFragile
     = {| totalFare := nan; commission := nan; driverPayout := nan |}.
Proof.
  unfold calculateDirectDeliveryFare, calculateCollectionPointFare.
  intros [->%is_nan_eq| ->%is_nan_eq].
  - rewrite !mul_nan_l, !add_nan_r, !add_nan_l. split; reflexivity.
  - rewrite !mul_nan_l, !add_nan_r, !add_nan_l. split; reflexivity.
Qed.

Lemma nan_input_gives_nan_fare_witness :
  calculateDirectDeliveryFare nan 5.2 "medium" true
  = {| totalFare := nan; commission := nan; driverPayout := nan |}.
Proof.
  apply (nan_input_gives_nan_fare nan 5.2 "medium" true). by left.
Defined.

End FareSpec.

(** ** Driver assignment *)

Module AssignmentSpec.

Import JS Assignment Binary64.
Local Open Scope float_scope.

(** Stand-in scorers for the examples: a driver at the pickup point scores
    0.5 for proximity and any other 0.25; the workload score halves with
    each active delivery; the rating is scaled to the unit interval. *)
Definition sample_scorers : Scorers :=
  {| calculateDistanceScore := fun loc pickup =>
       if (gp_lat loc =? gp_lat pickup) && (gp_lng loc =? gp_lng pickup)
       then 0.5 else 0.25;
     calculateWorkloadScore := fun completed active => 1 / (1 + active);
     calculateRatingScore := fun rating => rating / 5;
     calculateVehicleScore := fun _ _ => 1;
     calculateAvailabilityScore := fun _ => 1 |}.

Definition kampala : GeoPoint := {| gp_lat := 0.347596; gp_lng := 32.582520 |}.
Definition entebbe : GeoPoint := {| gp_lat := 0.0536; gp_lng := 32.4632 |}.

Definition sample_driver (id : string) (status : string) (at_ : GeoPoint)
    (active : float) : Driver :=
  {| id := id; name := "driver " ++ id; vehicleType := "motorcycle";
     rating := 4.5; status := status; isActive := true;
     currentLocation := at_; workingHours := [];
     completedDeliveries := 128; activeDeliveries := active;
     currentBookingId := None |}.

Definition pending_booking : BookingDoc :=
  {| b_status := "Pending Driver Assignment";
     b_pickupLocation := kampala;
     b_parcelDetails := {| parcel_type := "Electronics"; weightKg := 5.2;
                           parcel_isFragile := true |};
     b_driverId := None; b_driverName := None;
     b_assignmentTimestamp := None |}.

(** *** The sort *)

Section Sort.
Context {A : Type} (compareFn : A -> A -> float).

Lemma sort_insert_perm x l : sort_insert compareFn x l ≡ₚ x :: l.
Proof.
  induction l as [|y l IH]; simpl; [done|].
  destruct (0 <? compareFn x y); [|done].
  by rewrite IH, Permutation_swap.
Qed.

Lemma Array_sort_perm l : Array_sort compareFn l ≡ₚ l.
Proof.
  induction l as [|x l IH]; simpl; [done|].
  by rewrite sort_insert_perm, IH.
Qed.

End Sort.

Section Trigger.
Context {S : Scorers}.

Lemma calculateDriverScores_perm drivers booking :
  calculateDriverScores drivers booking ≡ₚ map (score booking) drivers.
Proof. apply Array_sort_perm. Qed.


(** C5, as the code has it. When the query finds no driver that is
    available and active, the invocation logs that and returns: neither
    the booking (whose status stays as it was) nor any driver document is
    changed. *)
Theorem no_available_driver_changes_nothing db bookingId bookingData :
  b_status bookingData = "Pending Driver Assignment"%string ->
  available_drivers db = [] ->
  assignDriverToBooking db bookingId bookingData
  = (db, [Log_no_available_drivers]).
Proof.
  intros Hs Ha. unfold assignDriverToBooking. simpl. rewrite Hs. simpl.
  by rewrite Ha.
Qed.

End Trigger.

Definition offline_only : Firestore :=
  {| bookings := {[ "b1"%string := pending_booking ]};
     drivers := [ sample_driver "d1" "offline" kampala 0 ] |}.

Lemma no_available_driver_changes_nothing_witness :
  assignDriverToBooking (S := sample_scorers) offline_only "b1" pending_booking
  = (offline_only, [Log_no_available_drivers]).
Proof.
  exact (no_available_driver_changes_nothing (S := sample_scorers)
           offline_only "b1" pending_booking eq_refl eq_refl).
Defined.

(** C5 fails as stated: with every driver offline the booking does not end
    in [AssignmentFailed]; it is still [Pending Driver Assignment]. *)
Lemma no_available_driver_not_marked_failed :
  let db' := (assignDriverToBooking (S := sample_scorers) offline_only "b1"
                pending_booking).1 in
  available_drivers offline_only = []
  /\ b_status <$> bookings db' !! "b1"%string
     = Some "Pending Driver Assignment"%string
  /\ b_status <$> bookings db' !! "b1"%string
     <> Some "AssignmentFailed"%string.
Proof. vm_compute. repeat split; congruence. Qed.

(** *** An invocation run alone *)


Section Trigger.
Context {S : Scorers}.














End Trigger.




(** *** Sorting by descending score *)

Section SortByScore.
Context {A : Type} (score_of : A -> float).

Definition descending (a b : A) : float := score_of b - score_of a.

Definition not_below (a b : A) : Prop := (score_of b <=? score_of a) = true.

Lemma sort_insert_unfold x y l :
  sort_insert descending x (y :: l)
  = if score_of x <? score_of y
    then y :: sort_insert descending x l else x :: y :: l.
Proof. simpl. unfold descending. by rewrite sub_pos_iff. Qed.

Lemma sort_insert_sorted x l :
  is_nan (score_of x) = false ->
  Forall (fun a => is_nan (score_of a) = false) l ->
  StronglySorted not_below l ->
  StronglySorted not_below (sort_insert descending x l).
Proof.
  intros Hx Hn Hs. induction Hs as [|y l Hs IH Hy].
  - repeat constructor.
  - apply Forall_cons in Hn as [Hny Hn]. rewrite sort_insert_unfold.
    destruct (score_of x <? score_of y) eqn:Hlt.
    + constructor; [by apply IH|].
      rewrite (sort_insert_perm descending x l). constructor; [|done].
      by apply leb_of_ltb.
    + assert (not_below x y) as Hxy by (by apply leb_of_not_ltb).
      constructor; [by constructor|]. constructor; [done|].
      eapply Forall_impl; [exact Hy|]. intros z Hz.
      unfold not_below in *. by eapply leb_trans.
Qed.

Lemma Array_sort_sorted l :
  Forall (fun a => is_nan (score_of a) = false) l ->
  StronglySorted not_below (Array_sort descending l).
Proof.
  induction l as [|x l IH]; intros Hn; simpl; [constructor|].
  apply Forall_cons in Hn as [Hx Hn]. apply sort_insert_sorted; auto.
  by rewrite (Array_sort_perm descending l).
Qed.



End SortByScore.

(** *** Ranking and commit *)



Section Ranking.
Context {S : Scorers}.


Lemma calculateDriverScores_nonempty drivers booking :
  drivers <> [] ->
  exists top rest, calculateDriverScores drivers booking = top :: rest.
Proof.
  intros Hne. pose proof (calculateDriverScores_perm drivers booking) as Hp.
  destruct (calculateDriverScores drivers booking) as [|top rest]; [|eauto].
  symmetry in Hp. apply Permutation_nil_r in Hp.
  by destruct drivers.
Qed.



End Ranking.



(** *** What a committed assignment leaves behind *)

Section Committed.
Context {S : Scorers}.





(** If the booking document is gone when the first write is attempted,
    the failure is caught and logged and the store is left as it was: no
    driver is marked assigned. *)
Theorem missing_booking_document_is_logged db bookingId bookingData :
  b_status bookingData = "Pending Driver Assignment"%string ->
  bookings db !! bookingId = None ->
  available_drivers db <> [] ->
  assignDriverToBooking db bookingId bookingData
  = (db, [Log_error bookingId]).
Proof.
  intros Hs Hnone Hne. unfold assignDriverToBooking. simpl. rewrite Hs.
  change (negb (String.eqb _ _)) with false. cbv iota.
  destruct (calculateDriverScores_nonempty _ bookingData Hne)
    as (top & rest & Hc).
  destruct (available_drivers db) as [|d0 ds] eqn:Ha; [done|].
  simpl. rewrite Hc. unfold update_booking. by rewrite Hnone.
Qed.

(** No candidate has a higher total than the one selected, when no total
    is [NaN]. *)
Theorem selected_has_highest_total drivers booking top rest d :
  Forall (fun x => is_nan (totalScore (score booking x)) = false) drivers ->
  calculateDriverScores drivers booking = top :: rest ->
  d ∈ drivers ->
  (totalScore (score booking d) <=? totalScore top)%float = true.
Proof.
  intros Hn Hc Hd.
  pose proof (calculateDriverScores_perm drivers booking) as Hp.
  assert (Forall (fun sd => is_nan (totalScore sd) = false)
            (map (score booking) drivers)) as Hn'.
  { apply Forall_forall. intros sd Hin.
    apply list_elem_of_fmap in Hin as (x & -> & Hx).
    by eapply Forall_forall in Hn. }
  pose proof (Array_sort_sorted totalScore _ Hn') as Hs.
  change (StronglySorted (not_below totalScore)
            (calculateDriverScores drivers booking)) in Hs.
  assert (score booking d ∈ top :: rest) as Hin.
  { rewrite <- Hc, Hp. by apply list_elem_of_fmap_2. }
  rewrite Hc in Hs. apply StronglySorted_inv in Hs as [_ Hall].
  apply elem_of_cons in Hin as [->|Hin].
  - apply leb_refl. rewrite <- Hp, Hc in Hn'.
    by apply Forall_cons in Hn' as [? _].
  - by eapply Forall_forall in Hall.
Qed.

End Committed.




Definition drivers_without_booking : Firestore :=
  {| bookings := ∅;
     drivers := [ sample_driver "d1" "available" kampala 0 ] |}.

Lemma missing_booking_document_is_logged_witness :
  assignDriverToBooking (S := sample_scorers) drivers_without_booking "b1"
    pending_booking
  = (drivers_without_booking, [Log_error "b1"]).
Proof.
  assert (available_drivers drivers_without_booking <> []) as Hne
    by (vm_compute; discriminate).
  exact (missing_booking_document_is_logged (S := sample_scorers)
           drivers_without_booking "b1" pending_booking eq_refl eq_refl Hne).
Defined.

Lemma selected_has_highest_total_witness :
  let d1 := sample_driver "d1" "available" kampala 0 in
  let d2 := sample_driver "d2" "available" entebbe 0 in
  (totalScore (score (S := sample_scorers) pending_booking d2)
   <=? totalScore (score (S := sample_scorers) pending_booking d1))%float
  = true.
Proof.
  intros d1 d2.
  assert (Forall (fun x => is_nan (totalScore
                     (score (S := sample_scorers) pending_booking x)) = false)
            [d2; d1]) as Hn by (repeat constructor).
  assert (d2 ∈ [d2; d1]) as Hin by (apply list_elem_of_In; left; reflexivity).
  exact (selected_has_highest_total (S := sample_scorers) [d2; d1]
           pending_booking (score (S := sample_scorers) pending_booking d1)
           [score (S := sample_scorers) pending_booking d2] d2 Hn eq_refl Hin).
Defined.
End AssignmentSpec.

(** ** Live tracking *)

Module TrackingSpec.

Import JS Tracking.
Local Open Scope float_scope.

(** A stand-in for the host's number formatting in the examples. *)
Definition sample_format : NumberFormat := {| toFixed := fun _ _ => "0" |}.

Definition in_transit : Booking :=
  {| customerId := Some "u1"%string; assignedDriver := Some "d1"%string;
     status := "In Transit"; dropoffLocation := None;
     bookingDate := Some 1000%Z; assignmentDate := Some 2000%Z;
     lastStatusUpdate := Some 3000%Z;
     tracking := {| enabled := None; startTime := None;
                    shareableLink := None; lastUpdateTime := None;
                    tracking_currentLocation := None;
                    driverBatteryLevel := None; distance_remaining := None;
                    estimatedArrival := None |} |}.

Definition sample_store : Firestore :=
  {| users := {[ "d1"%string :=
                   {| lastKnownLocation := None;
                      isLocationSharingActive := false;
                      lastLocationUpdate := None |} ]};
     admins := {[ "a1"%string := true ]};
     driverLocations := [];
     bookings := {[ "bk1"%string := in_transit ]};
     trackingSessions :=
       {[ "tok1"%string :=
            {| ts_bookingId := "bk1"; createdAt := 0; createdBy := "u1";
               expiresAt := Some 86400000%Z; accessCount := Some 3%Z;
               lastAccessedAt := None |} ]} |}.

Definition sample_at (lat lng : float) (captured : Z) : Position :=
  {| coords := {| latitude := lat; longitude := lng; accuracy := 10;
                  heading := JUndefined; speed := JUndefined |};
     timestamp := captured |}.

Section Ingestion.
Context {M : Fare.MathLib} {F : NumberFormat}.

(** C8, as the code has it. Every sample of a driver with a user document,
    whatever its capture timestamp, is appended to the history and
    overwrites the current location and the update time of each booking
    that the query returns for the driver; the other bookings are left as
    they were. The capture timestamp is not consulted: two samples that
    differ only in it have the same effect. *)
Theorem every_sample_overwrites_projection driver serverTime clientNow db
    position batteryLevel u :
  users db !! driver = Some u ->
  let db' := (updateDriverLocationInFirestore (Some driver) serverTime
                clientNow db position batteryLevel).1 in
  (forall bookingId b,
     bookings db !! bookingId = Some b -> is_assigned_to driver b = true ->
     exists b',
       bookings db' !! bookingId = Some b'
       /\ tracking_currentLocation (tracking b')
          = Some {| ll_lat := latitude (coords position);
                    ll_lng := longitude (coords position) |}
       /\ lastUpdateTime (tracking b') = Some serverTime)
  /\ (forall bookingId b,
        bookings db !! bookingId = Some b -> is_assigned_to driver b = false ->
        bookings db' !! bookingId = Some b)
  /\ length (driverLocations db') = Datatypes.S (length (driverLocations db))
  /\ (forall captured,
        updateDriverLocationInFirestore (Some driver) serverTime clientNow db
          {| coords := coords position; timestamp := captured |} batteryLevel
        = updateDriverLocationInFirestore (Some driver) serverTime clientNow
            db position batteryLevel).
Proof.
  intros Hu db'. unfold db', updateDriverLocationInFirestore. rewrite Hu.
  simpl. repeat split.
  - intros bookingId b Hb Ha. rewrite lookup_fmap, Hb. simpl. rewrite Ha.
    eexists. split; [reflexivity|]. done.
  - intros bookingId b Hb Ha. rewrite lookup_fmap, Hb. simpl. by rewrite Ha.
  - rewrite length_app. simpl. lia.
Qed.

End Ingestion.

Lemma every_sample_overwrites_projection_witness :
  (tracking_currentLocation ∘ tracking)
    <$> bookings (updateDriverLocationInFirestore
                    (M := FareSpec.small_angle_math) (F := sample_format)
                    (Some "d1"%string) 5000 5000 sample_store
                    (sample_at 0.30 32.50 1000) 100).1 !! "bk1"%string
  = Some (Some {| ll_lat := 0.30; ll_lng := 32.50 |}).
Proof.
  destruct (every_sample_overwrites_projection
              (M := FareSpec.small_angle_math) (F := sample_format)
              "d1" 5000 5000 sample_store (sample_at 0.30 32.50 1000) 100 _
              eq_refl) as (H & _).
  destruct (H "bk1"%string in_transit eq_refl eq_refl) as (b' & Hb & Hl & _).
  cbv zeta in Hb. rewrite Hb. simpl. by rewrite Hl.
Defined.

(** C8 fails as stated: a sample captured at time 1000 that is ingested
    after a sample captured at time 2000 replaces the current location of
    the booking. *)
Lemma stale_sample_moves_projection :
  let ingest serverTime db p :=
    (updateDriverLocationInFirestore (M := FareSpec.small_angle_math)
       (F := sample_format) (Some "d1"%string) serverTime serverTime db p
       100).1 in
  let newer := sample_at 0.31 32.58 2000 in
  let older := sample_at 0.30 32.50 1000 in
  let db1 := ingest 5000%Z sample_store newer in
  let db2 := ingest 6000%Z db1 older in
  (timestamp older < timestamp newer)%Z
  /\ (tracking_currentLocation ∘ tracking) <$> bookings db1 !! "bk1"%string
     = Some (Some {| ll_lat := 0.31; ll_lng := 32.58 |})
  /\ (tracking_currentLocation ∘ tracking) <$> bookings db2 !! "bk1"%string
     = Some (Some {| ll_lat := 0.30; ll_lng := 32.50 |}).
Proof. vm_compute. done. Qed.

(** *** Tracking sessions *)



(** *** The location history and the projections *)

(** A booking without a usable destination: no [dropoffLocation], or one
    whose latitude or longitude is missing or falsy (zero is). *)
Definition no_destination (b : Booking) : bool :=
  match dropoffLocation b with
  | Some dropoff => negb (truthy (Fare.lat dropoff) && truthy (Fare.lng dropoff))
  | None => true
  end.

Definition equator_dropoff : Booking :=
  {| customerId := Some "u1"%string; assignedDriver := Some "d1"%string;
     status := "Picked Up";
     dropoffLocation := Some {| Fare.lat := JNum 0; Fare.lng := JNum 32.58 |};
     bookingDate := Some 1000%Z; assignmentDate := Some 2000%Z;
     lastStatusUpdate := Some 3000%Z;
     tracking := {| enabled := Some true; startTime := None;
                    shareableLink := None; lastUpdateTime := Some 4000%Z;
                    tracking_currentLocation := None;
                    driverBatteryLevel := None;
                    distance_remaining := Some 12.5;
                    estimatedArrival :=
                      Some {| eta_from := 4000; eta_hours := 0.4 |} |} |}.

Section History.
Context {M : Fare.MathLib} {F : NumberFormat}.

(** The location history is append-only: an update leaves the entries so
    far in place and adds at most one, for the current driver and stamped
    by the server; the tracking sessions and the admins are not
    touched. *)
Theorem location_history_is_append_only CURRENT_DRIVER_ID serverTime clientNow
    db position batteryLevel :
  let db' := (updateDriverLocationInFirestore CURRENT_DRIVER_ID serverTime
                clientNow db position batteryLevel).1 in
  (exists added,
     driverLocations db' = driverLocations db ++ added
     /\ (length added <= 1)%nat
     /\ Forall (fun s => Some (dl_driverId s) = CURRENT_DRIVER_ID
                         /\ dl_timestamp s = serverTime) added)
  /\ trackingSessions db' = trackingSessions db
  /\ admins db' = admins db.
Proof.
  unfold updateDriverLocationInFirestore.
  destruct CURRENT_DRIVER_ID as [driver|]; simpl.
  - destruct (users db !! driver) as [u|]; simpl.
    + split; [|done]. eexists [_]. split; [reflexivity|].
      split; [simpl; lia|]. by repeat constructor.
    + split; [|done]. exists []. rewrite app_nil_r.
      split; [done|]. split; [simpl; lia|constructor].
  - split; [|done]. exists []. rewrite app_nil_r.
      split; [done|]. split; [simpl; lia|constructor].
Qed.

(** An update that fails, for want of a driver id or of the driver's user
    document, writes nothing at all. *)
Theorem failed_location_update_writes_nothing CURRENT_DRIVER_ID serverTime
    clientNow db position batteryLevel db' log :
  updateDriverLocationInFirestore CURRENT_DRIVER_ID serverTime clientNow db
    position batteryLevel = (db', log) ->
  log <> [Log_location_updated (latitude (coords position))
            (longitude (coords position))] ->
  db' = db
  /\ (CURRENT_DRIVER_ID = None
      \/ exists driver, CURRENT_DRIVER_ID = Some driver
                        /\ users db !! driver = None).
Proof.
  unfold updateDriverLocationInFirestore.
  destruct CURRENT_DRIVER_ID as [driver|].
  - destruct (users db !! driver) as [u|] eqn:Hu.
    + intros [= <- <-] Hlog. exfalso. apply Hlog. reflexivity.
    + intros [= <- <-] _. split; [done|]. right. eauto.
  - intros [= <- <-] _. split; [done|]. by left.
Qed.

(** For a booking without a usable destination the update moves the
    current location but leaves the remaining distance and the estimated
    arrival as they were stored. *)
Theorem projections_kept_without_destination serverTime clientNow c
    batteryLevel bookingData :
  no_destination bookingData = true ->
  let t' := tracking (track serverTime clientNow c batteryLevel bookingData) in
  distance_remaining t' = distance_remaining (tracking bookingData)
  /\ estimatedArrival t' = estimatedArrival (tracking bookingData)
  /\ tracking_currentLocation t'
     = Some {| ll_lat := latitude c; ll_lng := longitude c |}.
Proof.
  unfold no_destination, track. simpl.
  destruct (dropoffLocation bookingData) as [dropoff|]; [|done].
  intros H. apply negb_true_iff in H. by rewrite H.
Qed.

End History.

Lemma failed_location_update_writes_nothing_witness :
  (updateDriverLocationInFirestore (M := FareSpec.small_angle_math)
     (F := sample_format) (Some "d9"%string) 5000 5000 sample_store
     (sample_at 0.30 32.50 1000) 100).1 = sample_store.
Proof.
  refine (proj1 (failed_location_update_writes_nothing
                   (M := FareSpec.small_angle_math) (F := sample_format)
                   (Some "d9"%string) 5000 5000 sample_store
                   (sample_at 0.30 32.50 1000) 100 _ _ eq_refl _)).
  discriminate.
Defined.

Lemma projections_kept_without_destination_witness :
  let t' := tracking (track (M := FareSpec.small_angle_math) 5000 5000
                        (coords (sample_at 0.30 32.50 1000)) 100
                        equator_dropoff) in
  distance_remaining t' = Some 12.5%float
  /\ estimatedArrival t' = Some {| eta_from := 4000; eta_hours := 0.4 |}.
Proof.
  destruct (projections_kept_without_destination
              (M := FareSpec.small_angle_math) 5000 5000
              (coords (sample_at 0.30 32.50 1000)) 100 equator_dropoff
              eq_refl) as (H1 & H2 & _).
  split; [exact H1 | exact H2].
Defined.

(** *** The watcher *)

Section Watcher.
Context {M : Fare.MathLib} {F : NumberFormat}.

(** A sample either is dropped, and then neither the watcher nor the
    store changes, or is uploaded, and then it becomes the reference for
    the next movement test and the update interval is one of 5, 15 and 60
    seconds: from the first upload on, the interval stays between
    [minInterval] and [maxInterval]. *)
Theorem watcher_drops_or_uploads CURRENT_DRIVER_ID serverTime clientNow w db
    position batteryLevel :
  let '(w', db', log) :=
    on_position CURRENT_DRIVER_ID serverTime clientNow w db position
      batteryLevel in
  (w' = w /\ db' = db /\ log = [] /\ is_Some (lastLocation w))
  \/ ((db', log)
      = updateDriverLocationInFirestore CURRENT_DRIVER_ID serverTime clientNow
          db position batteryLevel
      /\ (cl_lat <$> lastLocation w', cl_lng <$> lastLocation w')
         = (Some (latitude (coords position)),
            Some (longitude (coords position)))
      /\ locationUpdateInterval w' ∈ [5000; 15000; 60000]
      /\ (minInterval <=? locationUpdateInterval w') = true
      /\ (locationUpdateInterval w' <=? maxInterval) = true).
Proof.
  unfold on_position.
  destruct (updateDriverLocationInFirestore _ _ _ _ _ _) as [db' log] eqn:Hu.
  set (moved := match lastLocation w with
                | Some last => _ | None => true end).
  destruct (moved || negb (bool_decide (is_Some (lastLocation w)))) eqn:Hc.
  - right. split; [done|]. split; [done|]. cbn [locationUpdateInterval].
    destruct (10 <? _); [|destruct (5 <? _)].
    + split; [|done]. apply list_elem_of_In. by left.
    + split; [|done]. apply list_elem_of_In. right. by left.
    + split; [|done]. apply list_elem_of_In. right. right. by left.
  - left. apply orb_false_elim in Hc as [_ Hc].
    apply negb_false_iff, bool_decide_eq_true in Hc. done.
Qed.

End Watcher.

(** *** Reads of a session *)





(** *** Tracking links *)

(** A link is issued only to the customer of the booking, to its
    assigned driver or to an admin, and only for a booking that exists;
    it expires 24 hours after it was made. *)
Theorem link_only_for_a_party_or_an_admin trackingId now serverTime db
    data_bookingId data_baseUrl auth db' link :
  generateTrackingLink trackingId now serverTime db data_bookingId
    data_baseUrl auth = (db', inr link) ->
  exists uid bookingId booking,
    auth = Some uid /\ data_bookingId = Some bookingId
    /\ bookings db !! bookingId = Some booking
    /\ (customerId booking = Some uid \/ assignedDriver booking = Some uid
        \/ admins db !! uid = Some true)
    /\ link_trackingId link = trackingId
    /\ link_expiresAt link = (now + 86400000)%Z.
Proof.
  unfold generateTrackingLink. destruct auth as [uid|]; [|done].
  destruct data_bookingId as [bookingId|]; [|done].
  destruct (String.eqb bookingId ""); [done|].
  destruct (bookings db !! bookingId) as [booking|] eqn:Hb; [|done].
  destruct (negb (bool_decide (customerId booking = Some uid))) eqn:Hc;
    [destruct (negb (bool_decide (assignedDriver booking = Some uid))) eqn:Hd|];
    simpl.
  - destruct (admins db !! uid) as [[]|] eqn:Ha; simpl; try done.
    intros [= <- <-]. exists uid, bookingId, booking. simpl. auto 10.
  - intros [= <- <-]. exists uid, bookingId, booking.
    apply negb_false_iff, bool_decide_eq_true in Hd. simpl. auto 10.
  - intros [= <- <-]. exists uid, bookingId, booking.
    apply negb_false_iff, bool_decide_eq_true in Hc. simpl. auto 10.
Qed.

(** A refused request writes nothing, and the caller is told one of
    three things: unauthenticated, invalid argument, or internal. That
    the booking was not found, or that permission was denied, is raised
    inside the [try] and reaches the caller as internal. *)
Theorem refused_link_writes_nothing trackingId now serverTime db
    data_bookingId data_baseUrl auth db' e :
  generateTrackingLink trackingId now serverTime db data_bookingId
    data_baseUrl auth = (db', inl e) ->
  db' = db
  /\ e <> not_found /\ e <> permission_denied
  /\ (e = unauthenticated <-> auth = None).
Proof.
  unfold generateTrackingLink. destruct auth as [uid|].
  - destruct data_bookingId as [bookingId|].
    + destruct (String.eqb bookingId "").
      * intros [= <- <-]. repeat split; done.
      * destruct (bookings db !! bookingId) as [booking|].
        -- destruct (negb _).
           ++ intros [= <- <-]. repeat split; done.
           ++ done.
        -- intros [= <- <-]. repeat split; done.
    + intros [= <- <-]. repeat split; done.
  - intros [= <- <-]. repeat split; done.
Qed.


Lemma link_only_for_a_party_or_an_admin_witness :
  exists booking,
    bookings sample_store !! "bk1"%string = Some booking
    /\ (customerId booking = Some "a1"%string
        \/ assignedDriver booking = Some "a1"%string
        \/ admins sample_store !! "a1"%string = Some true).
Proof.
  destruct (link_only_for_a_party_or_an_admin "tok2" 1000 1000 sample_store
              (Some "bk1"%string) None (Some "a1"%string) _ _ eq_refl)
    as (uid & bookingId & booking & [= <-] & [= <-] & Hb & Hp & _).
  exists booking. split; [exact Hb | exact Hp].
Defined.

Lemma refused_link_writes_nothing_witness :
  (generateTrackingLink "tok2" 1000 1000 sample_store (Some "bk1"%string)
     None (Some "u2"%string)).1 = sample_store.
Proof.
  exact (proj1 (refused_link_writes_nothing "tok2" 1000 1000 sample_store
                  (Some "bk1"%string) None (Some "u2"%string)
                  (generateTrackingLink "tok2" 1000 1000 sample_store
                     (Some "bk1"%string) None (Some "u2"%string)).1
                  internal eq_refl)).
Defined.


(** *** The cleanup *)

Lemma lookup_expired now (m : gmap string TrackingSession) id :
  filter (fun kv => expired_before now kv.2 = true) m !! id
  = match m !! id with
    | Some s => if expired_before now s then Some s else None
    | None => None
    end.
Proof.
  destruct (m !! id) as [s|] eqn:Hs.
  - destruct (expired_before now s) eqn:He.
    + by apply map_lookup_filter_Some.
    + apply map_lookup_filter_None. right. intros x Hx. simpl.
      rewrite Hs in Hx. injection Hx as <-. by rewrite He.
  - apply map_lookup_filter_None. by left.
Qed.

Lemma cleanup_lookup now db id :
  trackingSessions (cleanupExpiredTrackingSessions now db).1 !! id
  = match trackingSessions db !! id with
    | Some s => if expired_before now s then None else Some s
    | None => None
    end.
Proof.
  unfold cleanupExpiredTrackingSessions.
  pose proof (lookup_expired now (trackingSessions db) id) as Hl.
  destruct (decide _) as [He|Hne]; simpl.
  - rewrite He, lookup_empty in Hl.
    destruct (trackingSessions db !! id) as [s|]; [|done].
    by destruct (expired_before now s).
  - rewrite lookup_difference, Hl.
    destruct (trackingSessions db !! id) as [s|]; [|done].
    by destruct (expired_before now s).
Qed.

(** The count that a cleanup logs; nothing when it found no session. *)
Definition deleted (log : CleanupLog) : nat :=
  match log with
  | No_expired_sessions => 0
  | Deleted_sessions count => count
  end.

(** The cleanup deletes exactly the sessions whose expiry time is before
    its clock reading, keeps every other session as it is (those without
    an expiry time too), logs the number it deleted, and touches no other
    collection. *)
Theorem cleanup_deletes_exactly_the_expired now db :
  let '(db', log) := cleanupExpiredTrackingSessions now db in
  (forall id,
     trackingSessions db' !! id
     = match trackingSessions db !! id with
       | Some s => if expired_before now s then None else Some s
       | None => None
       end)
  /\ (size (trackingSessions db') + deleted log)%nat
     = size (trackingSessions db)
  /\ bookings db' = bookings db /\ users db' = users db
  /\ driverLocations db' = driverLocations db.
Proof.
  pose proof (cleanup_lookup now db) as Hl.
  unfold cleanupExpiredTrackingSessions in *.
  destruct (decide _) as [He|Hne]; simpl in *.
  - split; [done|]. split; [lia|done].
  - split; [done|]. split; [|done].
    set (expired := filter _ (trackingSessions db)).
    assert (expired ⊆ trackingSessions db) as Hsub
      by apply map_filter_subseteq.
    transitivity (size (expired ∪ trackingSessions db ∖ expired)).
    + rewrite map_size_disj_union by by apply map_disjoint_difference_r1.
      simpl. lia.
    + by rewrite map_difference_union.
Qed.

(** A second cleanup at the same clock reading finds nothing to do. *)
Theorem cleanup_is_idempotent now db :
  let db' := (cleanupExpiredTrackingSessions now db).1 in
  cleanupExpiredTrackingSessions now db' = (db', No_expired_sessions).
Proof.
  intros db'. unfold cleanupExpiredTrackingSessions at 1.
  destruct (decide _) as [He|Hne]; [done|]. destruct Hne.
  apply map_empty_filter_2. intros id s Hs. simpl.
  unfold db' in Hs. rewrite cleanup_lookup in Hs.
  destruct (trackingSessions db !! id) as [s0|]; [|done].
  destruct (expired_before now s0) eqn:He; [done|].
  injection Hs as <-. by rewrite He.
Qed.

(** The cleanup and the tracking page agree on what is expired: straight
    after a cleanup no token is answered with the expiry message, at the
    clock reading of the cleanup or any earlier one. *)
Theorem no_expired_answer_after_cleanup now db read_at checked_at trackingId :
  (checked_at <= now)%Z ->
  (initializeTracking (cleanupExpiredTrackingSessions now db).1 read_at
     checked_at trackingId).2
  <> ShowError "This tracking link has expired.".
Proof.
  intros Hle. unfold initializeTracking. rewrite cleanup_lookup.
  destruct (trackingSessions db !! trackingId) as [s|]; [|done].
  unfold expired_before. destruct (expiresAt s) as [t|] eqn:Ht.
  - destruct (Z.ltb_spec t now) as [Hlt|Hge]; [done|]. rewrite Ht.
    destruct (Z.ltb_spec t checked_at) as [Hlt'|_]; [lia|].
    by destruct (bookings _ !! _).
  - rewrite Ht. by destruct (bookings _ !! _).
Qed.

Lemma no_expired_answer_after_cleanup_witness :
  (initializeTracking (cleanupExpiredTrackingSessions 90000000 sample_store).1
     90000000 90000000 "tok1").2
  <> ShowError "This tracking link has expired.".
Proof.
  apply (no_expired_answer_after_cleanup 90000000 sample_store 90000000
           90000000 "tok1"). lia.
Defined.

(** *** The status timeline *)

(** The timeline always lists the five statuses in their fixed order; up
    to the current status the items are marked completed, the current one
    active and the later ones not at all. *)
Theorem timeline_marks_progress booking k :
  fst <$> allStatuses !! k = Some (status booking) ->
  ti_status <$> updateStatusTimeline booking = fst <$> allStatuses
  /\ ti_class <$> updateStatusTimeline booking
     = replicate k Completed ++ [Active] ++ replicate (4 - k) Plain.
Proof.
  intros Hk. split; [reflexivity|].
  unfold updateStatusTimeline.
  do 5 (destruct k as [|k]; [injection Hk as <-; reflexivity|]).
  done.
Qed.

(** A booking whose status is none of the five, such as the [Assigned]
    that the location update looks for, gets a timeline without any
    completed or active item. *)
Theorem unknown_status_timeline_is_unmarked booking :
  status booking ∉ (fst <$> allStatuses) ->
  ti_class <$> updateStatusTimeline booking = replicate 5 Plain.
Proof.
  intros Hn. unfold updateStatusTimeline.
  assert (forall k s, fst <$> allStatuses !! k = Some s ->
                      String.eqb s (status booking) = false) as Hne.
  { intros k s Hk. apply String.eqb_neq. intros ->. apply Hn.
    apply list_elem_of_lookup. exists k. by rewrite list_lookup_fmap. }
  cbn [allStatuses findIndex fst].
  rewrite (Hne 0%nat "Pending Driver Assignment"%string eq_refl),
    (Hne 1%nat "Driver Assigned"%string eq_refl),
    (Hne 2%nat "Picked Up"%string eq_refl),
    (Hne 3%nat "In Transit"%string eq_refl),
    (Hne 4%nat "Delivered"%string eq_refl).
  reflexivity.
Qed.

Definition assigned_booking : Booking :=
  {| customerId := Some "u1"%string; assignedDriver := Some "d1"%string;
     status := "Assigned"; dropoffLocation := None;
     bookingDate := Some 1000%Z; assignmentDate := None;
     lastStatusUpdate := None; tracking := tracking in_transit |}.

Lemma timeline_marks_progress_witness :
  ti_class <$> updateStatusTimeline in_transit
  = [Completed; Completed; Completed; Active; Plain].
Proof.
  exact (proj2 (timeline_marks_progress in_transit 3 eq_refl)).
Defined.

Lemma unknown_status_timeline_is_unmarked_witness :
  is_assigned_to "d1" assigned_booking = true
  /\ ti_class <$> updateStatusTimeline assigned_booking = replicate 5 Plain.
Proof.
  split; [reflexivity|].
  apply unknown_status_timeline_is_unmarked.
  intros Hin. apply list_elem_of_In in Hin. simpl in Hin.
  repeat (destruct Hin as [Hin|Hin]; [discriminate|]). exact Hin.
Defined.
End TrackingSpec.

(** ** The security rules *)

Module RulesSpec.

Import Rules.

(** The fields of a booking that a request of someone who is not an
    admin may change. *)
Definition unprivileged_keys : list string :=
  ["status"; "customerNotes"; "driverNotes"; "currentLocation"]%string.

(** The top-level field under which the driver's location update writes
    its dotted paths ([tracking.enabled], ...); [affectedKeys] lists
    top-level fields. *)
Definition tracking_key : string := "tracking".

Definition is_read (m : Method) : bool :=
  match m with
  | read => true
  | _ => false
  end.

Definition sample_database : Database :=
  {| user_isDriver := {[ "u1"%string := Bool false; "d1"%string := Bool true;
                         "u2"%string := Null ]};
     admin_isAdmin := {[ "a1"%string := true ]};
     booking_fields :=
       {[ "bk1"%string := {| bf_customerId := Some "u1"%string;
                             bf_driverId := Some "d1"%string |} ]} |}.

Definition request_of (uid : option string) (m : Method)
    (keys : list string) : Request :=
  {| auth := uid; method := m; resource_customerId := uid;
     resource_driverId := uid; affectedKeys := list_to_set keys |}.

Section Functions.
Context (db : Database) (request : Request).

Lemma unauthenticated_functions :
  auth request = None ->
  isAuthenticated request = false /\ isAdmin db request = false
  /\ isDriver db request = false /\ isSender db request = false.
Proof.
  intros H. unfold isAdmin, isDriver, isSender, isAuthenticated, with_uid.
  rewrite H. repeat split; apply bool_decide_eq_false; by intros [? ?].
Qed.

Lemma hasOnly_elem allowed k :
  hasOnly request allowed = true -> k ∈ affectedKeys request -> k ∈ allowed.
Proof.
  unfold hasOnly. intros H%bool_decide_eq_true Hk.
  apply H in Hk. by apply elem_of_list_to_set in Hk.
Qed.

(** What allows an update of a booking. *)
Lemma allow_update_cases bookingId :
  method request = update ->
  allow_bookings db request bookingId = true ->
  (isOwnerOfBooking db request bookingId = true
   /\ hasOnly request ["status"; "customerNotes"]%string = true)
  \/ (isAssignedDriver db request bookingId = true
      /\ hasOnly request ["status"; "driverNotes"; "currentLocation"]%string
         = true)
  \/ isAdmin db request = true.
Proof.
  intros Hm. unfold allow_bookings. rewrite Hm.
  intros [_ H]%andb_prop.
  apply orb_prop in H as [H|H]; [|auto].
  apply orb_prop in H as [H|H]; apply andb_prop in H; auto.
Qed.

(** The driver and the sender role exclude each other, and each requires
    an authenticated user with a user document. *)
Theorem roles_are_exclusive :
  (isDriver db request && isSender db request = false)
  /\ (isDriver db request || isSender db request = true ->
      exists uid, auth request = Some uid
                  /\ is_Some (user_isDriver db !! uid)).
Proof.
  unfold isDriver, isSender, isAuthenticated, with_uid.
  destruct (auth request) as [uid|].
  - rewrite bool_decide_eq_true_2 by eauto. cbn [andb].
    destruct (user_isDriver db !! uid) as [[| |[]]|] eqn:E;
      (split; [done|]); intros H; try done;
      (exists uid; split; [reflexivity|eexists; exact E]).
  - rewrite !andb_false_r. split; done.
Qed.

(** An update of a booking that is allowed to someone who is not an
    admin changes no field other than the status, the notes and the
    current location; the requester is the customer of the booking or
    its driver. *)
Theorem unprivileged_update_is_limited bookingId k :
  method request = update ->
  allow_bookings db request bookingId = true ->
  isAdmin db request = false ->
  k ∈ affectedKeys request ->
  k ∈ unprivileged_keys
  /\ exists uid b,
       auth request = Some uid /\ booking_fields db !! bookingId = Some b
       /\ (bf_customerId b = Some uid \/ bf_driverId b = Some uid).
Proof.
  intros Hm Ha Hn Hk.
  destruct (allow_update_cases bookingId Hm Ha) as [[Ho Hh]|[[Hd Hh]|Hadm]];
    [| |congruence].
  - split.
    + pose proof (hasOnly_elem _ _ Hh Hk) as Hin. unfold unprivileged_keys.
      apply list_elem_of_In in Hin. apply list_elem_of_In. simpl in *.
      tauto.
    + unfold isOwnerOfBooking, isAuthenticated in Ho.
      apply andb_prop in Ho as [Hau Ho].
      apply bool_decide_eq_true in Hau as [uid Hau].
      destruct (booking_fields db !! bookingId) as [b|]; [|done].
      apply bool_decide_eq_true in Ho. exists uid, b.
      rewrite <- Hau. auto.
  - split.
    + pose proof (hasOnly_elem _ _ Hh Hk) as Hin. unfold unprivileged_keys.
      apply list_elem_of_In in Hin. apply list_elem_of_In. simpl in *.
      tauto.
    + unfold isAssignedDriver, isAuthenticated in Hd.
      apply andb_prop in Hd as [Hau Hd].
      apply bool_decide_eq_true in Hau as [uid Hau].
      destruct (booking_fields db !! bookingId) as [b|]; [|done].
      apply bool_decide_eq_true in Hd. exists uid, b.
      rewrite <- Hau. auto.
Qed.

(** The tracking fields of a booking are written from the driver's
    client by the location update; under the rules only an admin may make
    such a write: from anyone else, also from the assigned driver, it is
    refused. *)
Theorem tracking_write_needs_admin bookingId :
  method request = update ->
  tracking_key ∈ affectedKeys request ->
  allow_bookings db request bookingId = isAdmin db request.
Proof.
  intros Hm Hk. destruct (allow_bookings db request bookingId) eqn:Ha.
  - destruct (allow_update_cases bookingId Hm Ha) as [[_ Hh]|[[_ Hh]|Hadm]];
      [| |done];
      pose proof (hasOnly_elem _ _ Hh Hk) as Hin; unfold tracking_key in Hin;
      apply list_elem_of_In in Hin; simpl in Hin; intuition discriminate.
  - unfold allow_bookings in Ha. rewrite Hm in Ha.
    destruct (isAdmin db request) eqn:Hadm; [|done].
    unfold isAdmin in Hadm. apply andb_prop in Hadm as [Hau _].
    by rewrite Hau, !orb_true_r in Ha.
Qed.

(** Without authentication nothing can be written, and only the
    collection points, the location history and the tracking sessions
    can be read. *)
Theorem unauthenticated_access id :
  auth request = None ->
  allow_users db request id = false
  /\ allow_admins db request id = false
  /\ allow_bookings db request id = false
  /\ allow_collectionPoints db request id = is_read (method request)
  /\ allow_driverLocations request id = is_read (method request)
  /\ allow_trackingSessions db request id = is_read (method request).
Proof.
  intros H. destruct (unauthenticated_functions H) as (Hau & Hadm & _ & _).
  unfold allow_users, allow_admins, allow_bookings, allow_collectionPoints,
    allow_driverLocations, allow_trackingSessions.
  rewrite Hau, Hadm. by destruct (method request).
Qed.

(** The rules let nobody become an admin: a write to an admin document
    is allowed only to an admin, and only to that admin's own
    document. *)
Theorem admin_documents_are_closed adminId :
  method request <> read ->
  allow_admins db request adminId = true ->
  auth request = Some adminId /\ admin_isAdmin db !! adminId = Some true.
Proof.
  intros Hm. unfold allow_admins.
  assert (isAuthenticated request && with_uid request (String.eqb adminId)
          && isAdmin db request = true ->
          auth request = Some adminId
          /\ admin_isAdmin db !! adminId = Some true) as Hw.
  { unfold isAdmin, with_uid. intros [[_ He]%andb_prop [_ Ha]%andb_prop]%andb_prop.
    destruct (auth request) as [uid|]; [|done].
    apply String.eqb_eq in He as <-.
    by apply bool_decide_eq_true in Ha. }
  by destruct (method request).
Qed.

(** A booking is created only by an authenticated user in the user's own
    name, and not by a driver: the user document must have its [isDriver]
    field, false or null. *)
Theorem booking_created_by_sender_in_own_name bookingId :
  method request = create ->
  allow_bookings db request bookingId = true ->
  exists uid,
    auth request = Some uid /\ resource_customerId request = Some uid
    /\ (user_isDriver db !! uid = Some (Bool false)
        \/ user_isDriver db !! uid = Some Null).
Proof.
  intros Hm. unfold allow_bookings. rewrite Hm.
  intros [[_ Hs]%andb_prop Hc]%andb_prop.
  apply bool_decide_eq_true in Hc. unfold isSender, with_uid in Hs.
  apply andb_prop in Hs as [_ Hs].
  destruct (auth request) as [uid|]; [|done]. exists uid.
  destruct (user_isDriver db !! uid) as [[| |[]]|]; try done; auto.
Qed.

(** A user document is changed or deleted only by its own user, but any
    authenticated user may create one, under any id: the [create] rule
    does not compare the id. *)
Theorem profile_creation_is_open userId :
  allow_users db request userId
  = match method request with
    | read =>
        bool_decide (auth request = Some userId) || isAdmin db request
    | create => isAuthenticated request
    | update | delete => bool_decide (auth request = Some userId)
    end.
Proof.
  unfold allow_users, isAdmin, isAuthenticated, with_uid.
  destruct (auth request) as [uid|] eqn:Hau.
  - rewrite bool_decide_eq_true_2 by eauto. cbn [andb].
    assert (String.eqb userId uid = bool_decide (Some uid = Some userId))
      as ->.
    { destruct (String.eqb_spec userId uid) as [->|Hne].
      - by rewrite bool_decide_eq_true_2.
      - rewrite bool_decide_eq_false_2; [done|]. by intros [= ->]. }
    destruct (method request); try done. by rewrite orb_true_r.
  - rewrite bool_decide_eq_false_2 by (by intros [? ?]).
    rewrite bool_decide_eq_false_2 by done. by destruct (method request).
Qed.

End Functions.

Lemma roles_are_exclusive_witness :
  exists uid, auth (request_of (Some "d1"%string) read []) = Some uid
              /\ is_Some (user_isDriver sample_database !! uid).
Proof.
  apply (roles_are_exclusive sample_database
           (request_of (Some "d1"%string) read [])).
  reflexivity.
Defined.

Lemma unprivileged_update_is_limited_witness :
  "status"%string ∈ unprivileged_keys.
Proof.
  refine (proj1 (unprivileged_update_is_limited sample_database
                   (request_of (Some "d1"%string) update
                      ["status"; "currentLocation"]%string)
                   "bk1" "status" eq_refl _ _ _)).
  - by vm_compute.
  - by vm_compute.
  - cbn. set_solver.
Defined.

Lemma tracking_write_needs_admin_witness :
  allow_bookings sample_database
    (request_of (Some "d1"%string) update ["tracking"; "lastUpdated"]%string)
    "bk1"
  = false.
Proof.
  rewrite (tracking_write_needs_admin sample_database
             (request_of (Some "d1"%string) update
                ["tracking"; "lastUpdated"]%string) "bk1" eq_refl).
  - by vm_compute.
  - unfold tracking_key. cbn. set_solver.
Defined.

Lemma unauthenticated_access_witness :
  allow_bookings sample_database (request_of None read []) "bk1" = false.
Proof.
  exact (proj1 (proj2 (proj2 (unauthenticated_access sample_database
                                (request_of None read []) "bk1" eq_refl)))).
Defined.

Lemma admin_documents_are_closed_witness :
  admin_isAdmin sample_database !! "a1"%string = Some true.
Proof.
  refine (proj2 (admin_documents_are_closed sample_database
                   (request_of (Some "a1"%string) update []) "a1" _ _)).
  - discriminate.
  - by vm_compute.
Defined.

Lemma booking_created_by_sender_in_own_name_witness :
  exists uid,
    auth (request_of (Some "u2"%string) create []) = Some uid
    /\ resource_customerId (request_of (Some "u2"%string) create [])
       = Some uid
    /\ (user_isDriver sample_database !! uid = Some (Bool false)
        \/ user_isDriver sample_database !! uid = Some Null).
Proof.
  apply (booking_created_by_sender_in_own_name sample_database
           (request_of (Some "u2"%string) create []) "bk2" eq_refl).
  by vm_compute.
Defined.

End RulesSpec.
